(** * screenMaster: a shallow embedding of the capture tool's logic

    The development follows the three source files of the repository:
    the type declarations ([AppMode], [AppSettings], [DrawTool], [Point]),
    the hotkey hook ([useHotkeys]), the annotation editor
    ([ScreenshotEditor]) and the application shell ([App]).

    Conventions.
    - JavaScript strings are [string]s of 8-bit characters; [toLowerCase]
      folds the ASCII letters, which is what it does on the chord strings
      and key names handled here.
    - Canvas coordinates and sizes are IEEE doubles ([float]), as JavaScript
      numbers are; identifiers handed out by the browser (tracks, interval
      timers) are [nat]s.
    - A React component is a record of its state variables and refs; an
      event handler is a function from the rendered state to the next one.
      Calls into the browser are kept in an ordered log next to the state,
      so that "before" and "only" can be stated. *)

From Stdlib Require Import ZArith String Ascii List Bool Floats Lia.
From Stdlib Require Import Decimal DecimalString DecimalPos DecimalZ.
From stdpp Require Import base decidable list gmap strings.
Import ListNotations.
Local Open Scope string_scope.
Local Open Scope list_scope.
Set Warnings "-clear-no-such-hyp".

(** ** JavaScript library functions used by the source *)

Module Js.

(** [String.prototype.toLowerCase], on ASCII: the letters A to Z are
    folded and every other character is kept. On a string written in
    ASCII this is what the browser computes; beyond ASCII the browser folds
    further letters, so statements over arbitrary strings are made for
    [is_ascii] ones. *)
Definition lower_char (c : ascii) : ascii :=
  let n := N_of_ascii c in
  if ((65 <=? n) && (n <=? 90))%N then ascii_of_N (n + 32) else c.

Fixpoint toLowerCase (s : string) : string :=
  match s with
  | EmptyString => EmptyString
  | String c rest => String (lower_char c) (toLowerCase rest)
  end.

(** The strings written in ASCII. *)
Definition is_ascii (s : string) : bool :=
  forallb (fun c => (N_of_ascii c <? 128)%N) (list_ascii_of_string s).

(** [String.prototype.split] with a one-character separator: the empty
    string splits into one empty piece, and a trailing separator leaves
    an empty last piece. *)
Fixpoint split (sep : ascii) (s : string) : list string :=
  match s with
  | EmptyString => [EmptyString]
  | String c rest =>
      if Ascii.eqb c sep then EmptyString :: split sep rest
      else match split sep rest with
           | [] => [String c EmptyString]
           | piece :: pieces => String c piece :: pieces
           end
  end.

(** [Array.prototype.includes] on an array of strings. *)
Definition includes (xs : list string) (x : string) : bool :=
  existsb (String.eqb x) xs.

(** [Array.prototype.every]. *)
Definition every {A} (p : A -> bool) (xs : list A) : bool := forallb p xs.

(** Truthiness of a value that is a string or [undefined]. *)
Definition truthy (v : option string) : bool :=
  match v with
  | Some s => negb (String.eqb s "")
  | None => false
  end.

(** [a === b] where [b] is a string or [undefined]. *)
Definition strict_eq (a : string) (b : option string) : bool :=
  match b with
  | Some s => String.eqb a s
  | None => false
  end.

(** [Array.prototype.slice(-n)]: the last [n] elements, or all of them
    when there are fewer. *)
Definition slice_last {A} (n : nat) (xs : list A) : list A :=
  drop (length xs - n) xs.

(** [Number.prototype.toString] of an integer. *)
Definition number_toString (n : Z) : string :=
  NilZero.string_of_int (Z.to_int n).

(** [String.prototype.padStart] with a one-character filler. *)
Definition padStart (targetLength : nat) (fill : ascii) (s : string) : string :=
  (string_of_list_ascii (repeat fill (targetLength - String.length s)) ++ s)%string.

(** [Math.floor(a / b)] and [a % b] on integers: the quotient rounded down,
    and the remainder with the sign of [a]. *)
Definition floor_div (a b : Z) : Z := (a / b)%Z.

Definition remainder (a b : Z) : Z := Z.rem a b.

End Js.

(** ** types.ts *)

Inductive AppMode := IDLE | RECORDING | SCREENSHOT_PREVIEW | SETTINGS | GALLERY.

Inductive SaveFormat := mp4 | webm.

Record AppSettings := {
  showCursor : bool;
  audioEnabled : bool;
  frameRate : Z;
  videoBitrate : Z;
  saveFormat : SaveFormat
}.

Inductive DrawTool := PEN | RECTANGLE | ARROW | TEXT.

Record Point := { x : float; y : float }.

(** ** hooks/useHotkeys.ts *)

Module Hotkeys.

Record KeyboardEvent := {
  ctrlKey : bool;
  shiftKey : bool;
  altKey : bool;
  metaKey : bool;
  key : string
}.

(** What a key-down handler does to its event and its hook's callback. *)
Inductive Action := PreventDefault | Callback.

Definition modifiers : list string := ["ctrl"; "shift"; "alt"].

(** The listener that [useHotkeys keyCombo callback] registers for
    [keydown]; the result lists what it does, in order. *)
Definition handleKeyDown (keyCombo : string) (event : KeyboardEvent) : list Action :=
  let keys := Js.split "+" (Js.toLowerCase keyCombo) in
  let pressed : list bool := [] in
  let pressed := if Js.includes keys "ctrl" then pressed ++ [ctrlKey event] else pressed in
  let pressed := if Js.includes keys "shift" then pressed ++ [shiftKey event] else pressed in
  let pressed := if Js.includes keys "alt" then pressed ++ [altKey event] else pressed in
  let mainKey := find (fun k => negb (Js.includes modifiers k)) keys in
  let pressed :=
    if Js.truthy mainKey && Js.strict_eq (Js.toLowerCase (key event)) mainKey
    then pressed ++ [true]
    else if negb (Js.truthy mainKey) then pressed
    else pressed ++ [false] in
  if Js.every (fun p => p) pressed && (length pressed =? length keys)%nat
  then [PreventDefault; Callback]
  else [].

End Hotkeys.


(** ** components/ScreenshotEditor.tsx *)

Module Editor.

(** *** The 2D drawing surface

    The content of a canvas is kept as the term that painted it: a
    surface is transparent after it is sized, and each painting call puts
    one layer on what is below. An [ImageData] taken by [getImageData]
    over the whole canvas is such a term. *)

Inductive PathCmd :=
| MoveTo (px py : float)
| LineTo (px py : float)
| RectTo (px py w h : float).

Inductive ImageData :=
| Transparent
| Drawn (under : ImageData) (src : string) (dx dy dw dh : float)
| Pasted (under : ImageData) (data : ImageData) (dx dy : float)
| Stroked (under : ImageData) (path : list PathCmd)
          (style : string) (width : float) (cap join : string).

Record Canvas := {
  width : float;
  height : float;
  surface : ImageData;
  path : list PathCmd;
  strokeStyle : string;
  ctx_lineWidth : float;
  lineCap : string;
  lineJoin : string
}.

(** A canvas element as the browser creates it. *)
Definition new_canvas : Canvas :=
  {| width := 300; height := 150; surface := Transparent; path := [];
     strokeStyle := "#000000"; ctx_lineWidth := 1;
     lineCap := "butt"; lineJoin := "miter" |}.

(** Assigning [canvas.width] or [canvas.height] clears the surface and
    resets the context. *)
Definition set_width (w : float) (c : Canvas) : Canvas :=
  {| width := w; height := height c; surface := Transparent; path := [];
     strokeStyle := "#000000"; ctx_lineWidth := 1;
     lineCap := "butt"; lineJoin := "miter" |}.

Definition set_height (h : float) (c : Canvas) : Canvas :=
  {| width := width c; height := h; surface := Transparent; path := [];
     strokeStyle := "#000000"; ctx_lineWidth := 1;
     lineCap := "butt"; lineJoin := "miter" |}.

(** The calls the editor makes on the 2D context. *)
Inductive CtxCall :=
| beginPath
| moveTo (px py : float)
| lineTo (px py : float)
| rect (px py w h : float)
| stroke
| assign_strokeStyle (v : string)
| assign_lineWidth (v : float)
| assign_lineCap (v : string)
| assign_lineJoin (v : string)
| putImageData (data : ImageData) (dx dy : float)
| drawImage (src : string) (dx dy dw dh : float).

Definition with_surface (img : ImageData) (c : Canvas) : Canvas :=
  {| width := width c; height := height c; surface := img; path := path c;
     strokeStyle := strokeStyle c; ctx_lineWidth := ctx_lineWidth c;
     lineCap := lineCap c; lineJoin := lineJoin c |}.

Definition with_path (p : list PathCmd) (c : Canvas) : Canvas :=
  {| width := width c; height := height c; surface := surface c; path := p;
     strokeStyle := strokeStyle c; ctx_lineWidth := ctx_lineWidth c;
     lineCap := lineCap c; lineJoin := lineJoin c |}.

(** One context call. A snapshot of the whole surface put back at the
    origin replaces the surface; anywhere else it is pasted over it. *)
Definition exec (c : Canvas) (call : CtxCall) : Canvas :=
  match call with
  | beginPath => with_path [] c
  | moveTo px py => with_path (path c ++ [MoveTo px py]) c
  | lineTo px py => with_path (path c ++ [LineTo px py]) c
  | rect px py w h => with_path (path c ++ [RectTo px py w h]) c
  | stroke =>
      with_surface
        (Stroked (surface c) (path c) (strokeStyle c) (ctx_lineWidth c)
                 (lineCap c) (lineJoin c)) c
  | assign_strokeStyle v =>
      {| width := width c; height := height c; surface := surface c;
         path := path c; strokeStyle := v; ctx_lineWidth := ctx_lineWidth c;
         lineCap := lineCap c; lineJoin := lineJoin c |}
  | assign_lineWidth v =>
      {| width := width c; height := height c; surface := surface c;
         path := path c; strokeStyle := strokeStyle c; ctx_lineWidth := v;
         lineCap := lineCap c; lineJoin := lineJoin c |}
  | assign_lineCap v =>
      {| width := width c; height := height c; surface := surface c;
         path := path c; strokeStyle := strokeStyle c;
         ctx_lineWidth := ctx_lineWidth c; lineCap := v; lineJoin := lineJoin c |}
  | assign_lineJoin v =>
      {| width := width c; height := height c; surface := surface c;
         path := path c; strokeStyle := strokeStyle c;
         ctx_lineWidth := ctx_lineWidth c; lineCap := lineCap c; lineJoin := v |}
  | putImageData data dx dy =>
      if (PrimFloat.eqb dx 0 && PrimFloat.eqb dy 0)%bool
      then with_surface data c
      else with_surface (Pasted (surface c) data dx dy) c
  | drawImage src dx dy dw dh =>
      with_surface (Drawn (surface c) src dx dy dw dh) c
  end.

Definition exec_all (c : Canvas) (calls : list CtxCall) : Canvas :=
  fold_left exec calls c.

(** The call that puts a snapshot back. *)
Definition is_restore (call : CtxCall) : bool :=
  match call with
  | putImageData _ _ _ => true
  | _ => false
  end.

(** The calls of a move begin by putting a snapshot back. *)
Definition restores_first (calls : list CtxCall) : bool :=
  match calls with
  | call :: _ => is_restore call
  | [] => false
  end.

(** [ctx.getImageData(0, 0, canvas.width, canvas.height)]. *)
Definition getImageData (c : Canvas) : ImageData := surface c.

(** *** Component state *)

Record HTMLImageElement := {
  src : string;
  img_width : float;
  img_height : float
}.

Record State := {
  selectedTool : DrawTool;
  color : string;
  lineWidth : float;
  isDrawing : bool;
  startPoint : option Point;
  history : list ImageData;
  originalImage : option HTMLImageElement;
  (* canvasRef.current with its 2D context: the handlers are those of the
     mounted canvas, so both are there when one runs *)
  canvas : Canvas
}.

Definition initial : State :=
  {| selectedTool := PEN; color := "#ef4444"; lineWidth := 4;
     isDrawing := false; startPoint := None; history := [];
     originalImage := None; canvas := new_canvas |}.

Definition setSelectedTool (t : DrawTool) (s : State) : State :=
  {| selectedTool := t; color := color s; lineWidth := lineWidth s;
     isDrawing := isDrawing s; startPoint := startPoint s;
     history := history s; originalImage := originalImage s;
     canvas := canvas s |}.

Definition setColor (v : string) (s : State) : State :=
  {| selectedTool := selectedTool s; color := v; lineWidth := lineWidth s;
     isDrawing := isDrawing s; startPoint := startPoint s;
     history := history s; originalImage := originalImage s;
     canvas := canvas s |}.

Definition setLineWidth (v : float) (s : State) : State :=
  {| selectedTool := selectedTool s; color := color s; lineWidth := v;
     isDrawing := isDrawing s; startPoint := startPoint s;
     history := history s; originalImage := originalImage s;
     canvas := canvas s |}.

Definition setIsDrawing (v : bool) (s : State) : State :=
  {| selectedTool := selectedTool s; color := color s; lineWidth := lineWidth s;
     isDrawing := v; startPoint := startPoint s;
     history := history s; originalImage := originalImage s;
     canvas := canvas s |}.

Definition setStartPoint (v : option Point) (s : State) : State :=
  {| selectedTool := selectedTool s; color := color s; lineWidth := lineWidth s;
     isDrawing := isDrawing s; startPoint := v;
     history := history s; originalImage := originalImage s;
     canvas := canvas s |}.

(** [setHistory(prev => f prev)]. *)
Definition setHistory (f : list ImageData -> list ImageData) (s : State) : State :=
  {| selectedTool := selectedTool s; color := color s; lineWidth := lineWidth s;
     isDrawing := isDrawing s; startPoint := startPoint s;
     history := f (history s); originalImage := originalImage s;
     canvas := canvas s |}.

Definition setOriginalImage (img : HTMLImageElement) (s : State) : State :=
  {| selectedTool := selectedTool s; color := color s; lineWidth := lineWidth s;
     isDrawing := isDrawing s; startPoint := startPoint s;
     history := history s; originalImage := Some img;
     canvas := canvas s |}.

Definition on_canvas (f : Canvas -> Canvas) (s : State) : State :=
  {| selectedTool := selectedTool s; color := color s; lineWidth := lineWidth s;
     isDrawing := isDrawing s; startPoint := startPoint s;
     history := history s; originalImage := originalImage s;
     canvas := f (canvas s) |}.

(** The handler issues [calls] on the context, in this order. *)
Definition issue (calls : list CtxCall) (s : State) : State :=
  on_canvas (fun c => exec_all c calls) s.

(** *** Pointer input *)

(** A mouse event, or a touch event with its first touch and the others. *)
Inductive PointerEvent :=
| MouseEvent (clientX clientY : float)
| TouchEvent (first : float * float) (others : list (float * float)).

Record DOMRect := { left : float; top : float }.

(** An event as a handler receives it, with what
    [canvas.getBoundingClientRect()] answers at that time. *)
Record Pointer := { event : PointerEvent; bounding : DOMRect }.

Definition getCoordinates (e : Pointer) : Point :=
  let clientX := match event e with
                 | TouchEvent t _ => fst t
                 | MouseEvent cx _ => cx
                 end in
  let clientY := match event e with
                 | TouchEvent t _ => snd t
                 | MouseEvent _ cy => cy
                 end in
  {| x := clientX - left (bounding e); y := clientY - top (bounding e) |}.

(** *** Handlers *)

Definition saveState (s : State) : State :=
  setHistory (fun prev => Js.slice_last 10 prev ++ [getImageData (canvas s)]) s.

Definition startDrawing_calls (s : State) (point : Point) : list CtxCall :=
  [beginPath; moveTo (x point) (y point);
   assign_strokeStyle (color s); assign_lineWidth (lineWidth s);
   assign_lineCap "round"; assign_lineJoin "round"].

Definition startDrawing (e : Pointer) (s : State) : State :=
  let point := getCoordinates e in
  issue (startDrawing_calls s point)
        (setStartPoint (Some point) (setIsDrawing true s)).

Definition undo (s : State) : State :=
  if (1 <? length (history s))%nat then
    let newHistory := removelast (history s) in
    let previousState := last newHistory in
    let s' := setHistory (fun _ => newHistory) s in
    match previousState with
    | Some data => issue [putImageData data 0 0] s'
    | None => s'
    end
  else s.

Definition endDrawing (s : State) : State :=
  if negb (isDrawing s) then s
  else saveState (setStartPoint None (setIsDrawing false s)).

(** [Math.min] of two numbers. *)
Definition Math_min (a b : float) : float :=
  if (is_nan a || is_nan b)%bool then nan
  else if (a <? b)%float then a
  else if (b <? a)%float then b
  else if get_sign a then a else b.

Record Container := { clientWidth : float; clientHeight : float }.

(** [img.onload]: the image is fitted into the container and painted, and
    the painted surface is the first snapshot. The canvas keeps the sizes
    as they are assigned. *)
Definition onload (img : HTMLImageElement) (container : Container) (s : State) : State :=
  let s := setOriginalImage img s in
  let maxWidth := (clientWidth container - 40)%float in
  let maxHeight := (clientHeight container - 100)%float in
  let width := img_width img in
  let height := img_height img in
  let '(width, height) :=
    if ((maxWidth <? width)%float || (maxHeight <? height)%float)%bool then
      let ratio := Math_min (maxWidth / width) (maxHeight / height) in
      ((width * ratio)%float, (height * ratio)%float)
    else (width, height) in
  let s := on_canvas (fun c => set_height height (set_width width c)) s in
  saveState (issue [drawImage (src img) 0 0 width height] s).

Section Drawing.

(** [Math.atan2], [Math.cos] and [Math.sin] are the host's. *)
Variable Math_atan2 : float -> float -> float.
Variables Math_cos Math_sin : float -> float.

Definition Math_PI : float := 0x1.921fb54442d18p+1.

(** The context calls of one [draw], in the order they are made. *)
Definition draw_calls (s : State) (e : Pointer) : list CtxCall :=
  match isDrawing s, startPoint s with
  | true, Some startPoint =>
      let currentPoint := getCoordinates e in
      match selectedTool s with
      | PEN => [lineTo (x currentPoint) (y currentPoint); stroke]
      | RECTANGLE | ARROW =>
          (* Restore last state to avoid trails *)
          let lastState := last (history s) in
          match lastState with
          | Some data => [putImageData data 0 0]
          | None => []
          end
          ++ [beginPath; assign_strokeStyle (color s);
              assign_lineWidth (lineWidth s)]
          ++ match selectedTool s with
             | RECTANGLE =>
                 [rect (x startPoint) (y startPoint)
                       (x currentPoint - x startPoint)
                       (y currentPoint - y startPoint);
                  stroke]
             | ARROW =>
                 let angle := Math_atan2 (y currentPoint - y startPoint)
                                         (x currentPoint - x startPoint) in
                 let headLength := (lineWidth s * 4)%float in
                 [beginPath;
                  moveTo (x startPoint) (y startPoint);
                  lineTo (x currentPoint) (y currentPoint);
                  stroke;
                  beginPath;
                  moveTo (x currentPoint) (y currentPoint);
                  lineTo (x currentPoint - headLength * Math_cos (angle - Math_PI / 6))
                         (y currentPoint - headLength * Math_sin (angle - Math_PI / 6));
                  moveTo (x currentPoint) (y currentPoint);
                  lineTo (x currentPoint - headLength * Math_cos (angle + Math_PI / 6))
                         (y currentPoint - headLength * Math_sin (angle + Math_PI / 6));
                  stroke]
             | _ => []
             end
      | TEXT => []
      end
  | _, _ => []
  end.

Definition draw (s : State) (e : Pointer) : State :=
  issue (draw_calls s e) s.

(** One drawing gesture: press, moves, release. *)
Definition gesture (press : Pointer) (moves : list Pointer) (s : State) : State :=
  endDrawing (fold_left draw moves (startDrawing press s)).

(** What can happen to a mounted editor. *)
Inductive Event :=
| Loaded (img : HTMLImageElement) (container : Container)
| Press (e : Pointer)
| Move (e : Pointer)
| Release
| ClickUndo
| SelectTool (t : DrawTool)
| PickColor (v : string)
| PickSize (v : float).

Definition step (s : State) (ev : Event) : State :=
  match ev with
  | Loaded img container => onload img container s
  | Press e => startDrawing e s
  | Move e => draw s e
  | Release => endDrawing s
  | ClickUndo => undo s
  | SelectTool t => setSelectedTool t s
  | PickColor v => setColor v s
  | PickSize v => setLineWidth v s
  end.

Definition run (evs : list Event) (s : State) : State := fold_left step evs s.

(** A sequence of gestures, each a press with its moves, one after the
    other. *)
Definition gestures (strokes : list (Pointer * list Pointer)) (s : State) : State :=
  fold_left (fun s stroke => gesture (fst stroke) (snd stroke) s) strokes s.

End Drawing.

End Editor.

(** ** App.tsx *)

Module App.

(** *** Browser objects *)

Inductive RecordingState := inactive | recording | paused.

Record MediaRecorder := {
  state : RecordingState;
  mimeType : string;
  videoBitsPerSecond : Z
}.

(** A stream is known by the identifiers of its tracks. *)
Record MediaStream := { videoTracks : list nat; audioTracks : list nat }.

Definition getVideoTracks (s : MediaStream) : list nat := videoTracks s.

Definition getTracks (s : MediaStream) : list nat := videoTracks s ++ audioTracks s.

Record Blob := { size : Z; type : string }.

Record DisplayMediaStreamOptions := {
  video_frameRate : option Z;
  video_displaySurface : option string;
  (* [Some (echoCancellation, noiseSuppression)], or [None] for [false] *)
  audio : option (bool * bool)
}.

(** What the browser keeps: the tracks that are live, the interval timers
    that are armed, the tracks whose [onended] is [stopRecording], and the
    next identifiers it hands out. *)
Record Browser := {
  live : gset nat;
  intervals : gset nat;
  onended : gset nat;
  next_track : nat;
  next_timer : nat
}.

(** What the host answers when asked: the user's choice in the capture
    picker ([None]: the promise rejects; [Some a]: a stream with one video
    track and, when [a] and audio was asked for, an audio track), which encodings it reports as
    supported, which ones the recorder's constructor takes, and, for a
    screenshot, whether the hidden video starts playing, whether a 2D
    context is handed out and the frame's data URL. *)
Record Host := {
  getDisplayMedia : DisplayMediaStreamOptions -> option bool;
  isTypeSupported : string -> bool;
  recorder_accepts : string -> bool;
  video_plays : bool;
  context_2d : bool;
  toDataURL : string
}.

(** *** Component state and refs *)

Record Component := {
  mode : AppMode;
  settings : AppSettings;
  recordingTime : Z;
  screenshotSrc : option string;
  mediaRecorderRef : option MediaRecorder;
  streamRef : option MediaStream;
  chunksRef : list Blob;
  timerRef : option nat
}.

Definition DEFAULT_SETTINGS : AppSettings :=
  {| showCursor := true; audioEnabled := false; frameRate := 30;
     videoBitrate := 5000000; saveFormat := mp4 |}.

(** The calls that leave a mark outside the handler, as they are made. *)
Inductive Call :=
| call_getDisplayMedia (opts : DisplayMediaStreamOptions)
| call_new_MediaRecorder (mime : string) (bits : Z)
| call_recorder_start (timeslice : Z)
| call_recorder_stop
| call_track_stop (t : nat)
| call_setInterval (id : nat) (ms : Z)
| call_clearInterval (id : nat)
| call_console_error (msg : string)
| call_setMode (m : AppMode)
| call_setRecordingTime (v : Z)
| call_setScreenshotSrc (v : option string).

Record World := { app : Component; browser : Browser; log : list Call }.

Definition initial : World :=
  {| app := {| mode := IDLE; settings := DEFAULT_SETTINGS; recordingTime := 0;
               screenshotSrc := None; mediaRecorderRef := None;
               streamRef := None; chunksRef := []; timerRef := None |};
     browser := {| live := ∅; intervals := ∅; onended := ∅;
                   next_track := 0; next_timer := 1 |};
     log := [] |}.

(** *** Handlers as actions on the world

    A handler returns, throws, or stays suspended at an [await] that is
    never resumed. *)

Inductive Outcome (A : Type) :=
| Returned (a : A)
| Thrown (err : string)
| Suspended.
Arguments Returned {A} a.
Arguments Thrown {A} err.
Arguments Suspended {A}.

Definition Act (A : Type) : Type := World -> Outcome A * World.

#[global] Instance Act_ret : MRet Act := fun A a w => (Returned a, w).

#[global] Instance Act_bind : MBind Act := fun A B f m w =>
  match m w with
  | (Returned a, w') => f a w'
  | (Thrown err, w') => (Thrown err, w')
  | (Suspended, w') => (Suspended, w')
  end.

Definition throw {A} (err : string) : Act A := fun w => (Thrown err, w).

Definition suspend {A} : Act A := fun w => (Suspended, w).

(** [try { body } catch (err) { handler err }]. *)
Definition try_catch {A} (body : Act A) (handler : string -> Act A) : Act A :=
  fun w =>
    match body w with
    | (Thrown err, w') => handler err w'
    | r => r
    end.

Definition read {A} (f : World -> A) : Act A := fun w => (Returned (f w), w).

Definition call (c : Call) : Act unit := fun w =>
  (Returned tt, {| app := app w; browser := browser w; log := log w ++ [c] |}).

Definition on_app (f : Component -> Component) : Act unit := fun w =>
  (Returned tt, {| app := f (app w); browser := browser w; log := log w |}).

Definition on_browser (f : Browser -> Browser) : Act unit := fun w =>
  (Returned tt, {| app := app w; browser := f (browser w); log := log w |}).

(** [xs.forEach(f)]. *)
Fixpoint forEach {A} (f : A -> Act unit) (xs : list A) : Act unit :=
  match xs with
  | [] => mret tt
  | a :: rest => f a ;; forEach f rest
  end.

(** The world a handler leaves behind. *)
Definition after {A} (m : Act A) (w : World) : World := snd (m w).

(** **** State setters and ref assignments *)

Definition setMode (m : AppMode) : Act unit :=
  call (call_setMode m) ;;
  on_app (fun a =>
    {| mode := m; settings := settings a; recordingTime := recordingTime a;
       screenshotSrc := screenshotSrc a; mediaRecorderRef := mediaRecorderRef a;
       streamRef := streamRef a; chunksRef := chunksRef a; timerRef := timerRef a |}).

Definition setSettings (f : AppSettings -> AppSettings) : Act unit :=
  on_app (fun a =>
    {| mode := mode a; settings := f (settings a); recordingTime := recordingTime a;
       screenshotSrc := screenshotSrc a; mediaRecorderRef := mediaRecorderRef a;
       streamRef := streamRef a; chunksRef := chunksRef a; timerRef := timerRef a |}).

Definition setRecordingTime (f : Z -> Z) : Act unit :=
  t ← read (fun w => recordingTime (app w));
  call (call_setRecordingTime (f t)) ;;
  on_app (fun a =>
    {| mode := mode a; settings := settings a; recordingTime := f (recordingTime a);
       screenshotSrc := screenshotSrc a; mediaRecorderRef := mediaRecorderRef a;
       streamRef := streamRef a; chunksRef := chunksRef a; timerRef := timerRef a |}).

Definition setScreenshotSrc (v : option string) : Act unit :=
  call (call_setScreenshotSrc v) ;;
  on_app (fun a =>
    {| mode := mode a; settings := settings a; recordingTime := recordingTime a;
       screenshotSrc := v; mediaRecorderRef := mediaRecorderRef a;
       streamRef := streamRef a; chunksRef := chunksRef a; timerRef := timerRef a |}).

Definition assign_mediaRecorderRef (v : option MediaRecorder) : Act unit :=
  on_app (fun a =>
    {| mode := mode a; settings := settings a; recordingTime := recordingTime a;
       screenshotSrc := screenshotSrc a; mediaRecorderRef := v;
       streamRef := streamRef a; chunksRef := chunksRef a; timerRef := timerRef a |}).

Definition assign_streamRef (v : option MediaStream) : Act unit :=
  on_app (fun a =>
    {| mode := mode a; settings := settings a; recordingTime := recordingTime a;
       screenshotSrc := screenshotSrc a; mediaRecorderRef := mediaRecorderRef a;
       streamRef := v; chunksRef := chunksRef a; timerRef := timerRef a |}).

Definition assign_chunksRef (f : list Blob -> list Blob) : Act unit :=
  on_app (fun a =>
    {| mode := mode a; settings := settings a; recordingTime := recordingTime a;
       screenshotSrc := screenshotSrc a; mediaRecorderRef := mediaRecorderRef a;
       streamRef := streamRef a; chunksRef := f (chunksRef a); timerRef := timerRef a |}).

Definition assign_timerRef (v : option nat) : Act unit :=
  on_app (fun a =>
    {| mode := mode a; settings := settings a; recordingTime := recordingTime a;
       screenshotSrc := screenshotSrc a; mediaRecorderRef := mediaRecorderRef a;
       streamRef := streamRef a; chunksRef := chunksRef a; timerRef := v |}).

(** **** Browser calls *)

(** [navigator.mediaDevices.getDisplayMedia(opts)], awaited: the promise
    rejects, or brings a stream of fresh live tracks. *)
Definition await_getDisplayMedia (h : Host) (opts : DisplayMediaStreamOptions)
  : Act MediaStream :=
  call (call_getDisplayMedia opts) ;;
  match getDisplayMedia h opts with
  | None => throw "NotAllowedError"
  | Some with_audio =>
      n ← read (fun w => next_track (browser w));
      let stream :=
        {| videoTracks := [n];
           audioTracks := if with_audio && bool_decide (is_Some (audio opts))
                          then [S n] else [] |} in
      on_browser (fun b =>
        {| live := live b ∪ list_to_set (getTracks stream);
           intervals := intervals b; onended := onended b;
           next_track := S (S n); next_timer := next_timer b |}) ;;
      mret stream
  end.

(** [track.onended = () => { stopRecording(); }]. *)
Definition assign_onended (t : nat) : Act unit :=
  on_browser (fun b =>
    {| live := live b; intervals := intervals b; onended := onended b ∪ {[t]};
       next_track := next_track b; next_timer := next_timer b |}).

(** [track.stop()]. *)
Definition track_stop (t : nat) : Act unit :=
  call (call_track_stop t) ;;
  on_browser (fun b =>
    {| live := live b ∖ {[t]}; intervals := intervals b; onended := onended b;
       next_track := next_track b; next_timer := next_timer b |}).

(** [new MediaRecorder(stream, { mimeType, videoBitsPerSecond })]. *)
Definition new_MediaRecorder (h : Host) (mime : string) (bits : Z) : Act MediaRecorder :=
  call (call_new_MediaRecorder mime bits) ;;
  if recorder_accepts h mime
  then mret {| state := inactive; mimeType := mime; videoBitsPerSecond := bits |}
  else throw "NotSupportedError".

Definition with_state (st : RecordingState) (r : MediaRecorder) : MediaRecorder :=
  {| state := st; mimeType := mimeType r; videoBitsPerSecond := videoBitsPerSecond r |}.

(** [recorder.start(timeslice)], on the recorder the ref holds. *)
Definition recorder_start (timeslice : Z) : Act unit :=
  call (call_recorder_start timeslice) ;;
  r ← read (fun w => mediaRecorderRef (app w));
  assign_mediaRecorderRef (with_state recording <$> r).

(** [mediaRecorderRef.current.stop()]. *)
Definition recorder_stop : Act unit :=
  call call_recorder_stop ;;
  r ← read (fun w => mediaRecorderRef (app w));
  assign_mediaRecorderRef (with_state inactive <$> r).

(** [window.setInterval(handler, ms)]. *)
Definition setInterval (ms : Z) : Act nat :=
  id ← read (fun w => next_timer (browser w));
  call (call_setInterval id ms) ;;
  on_browser (fun b =>
    {| live := live b; intervals := intervals b ∪ {[id]}; onended := onended b;
       next_track := next_track b; next_timer := S id |}) ;;
  mret id.

Definition clearInterval (id : nat) : Act unit :=
  call (call_clearInterval id) ;;
  on_browser (fun b =>
    {| live := live b; intervals := intervals b ∖ {[id]}; onended := onended b;
       next_track := next_track b; next_timer := next_timer b |}).

Definition console_error (msg : string) : Act unit := call (call_console_error msg).

(** **** Settings *)

Inductive SettingsKey :=
| key_showCursor | key_audioEnabled | key_frameRate | key_videoBitrate | key_saveFormat.

Definition field (key : SettingsKey) : Type :=
  match key with
  | key_showCursor | key_audioEnabled => bool
  | key_frameRate | key_videoBitrate => Z
  | key_saveFormat => SaveFormat
  end.

(** [settings[key]]. *)
Definition get (key : SettingsKey) (s : AppSettings) : field key :=
  match key with
  | key_showCursor => showCursor s
  | key_audioEnabled => audioEnabled s
  | key_frameRate => frameRate s
  | key_videoBitrate => videoBitrate s
  | key_saveFormat => saveFormat s
  end.

(** [{ ...prev, [key]: value }]. *)
Definition spread (prev : AppSettings) (key : SettingsKey) : field key -> AppSettings :=
  match key with
  | key_showCursor => fun value =>
      {| showCursor := value; audioEnabled := audioEnabled prev;
         frameRate := frameRate prev; videoBitrate := videoBitrate prev;
         saveFormat := saveFormat prev |}
  | key_audioEnabled => fun value =>
      {| showCursor := showCursor prev; audioEnabled := value;
         frameRate := frameRate prev; videoBitrate := videoBitrate prev;
         saveFormat := saveFormat prev |}
  | key_frameRate => fun value =>
      {| showCursor := showCursor prev; audioEnabled := audioEnabled prev;
         frameRate := value; videoBitrate := videoBitrate prev;
         saveFormat := saveFormat prev |}
  | key_videoBitrate => fun value =>
      {| showCursor := showCursor prev; audioEnabled := audioEnabled prev;
         frameRate := frameRate prev; videoBitrate := value;
         saveFormat := saveFormat prev |}
  | key_saveFormat => fun value =>
      {| showCursor := showCursor prev; audioEnabled := audioEnabled prev;
         frameRate := frameRate prev; videoBitrate := videoBitrate prev;
         saveFormat := value |}
  end.

Definition updateSettings (key : SettingsKey) (value : field key) : Act unit :=
  setSettings (fun prev => spread prev key value).

(** **** Recording *)

Definition stopRecording : Act unit :=
  r ← read (fun w => mediaRecorderRef (app w));
  match r with
  | Some recorder =>
      match state recorder with
      | inactive => mret tt
      | _ => recorder_stop
      end
  | None => mret tt
  end ;;
  s ← read (fun w => streamRef (app w));
  match s with
  | Some stream => forEach track_stop (getTracks stream)
  | None => mret tt
  end ;;
  t ← read (fun w => timerRef (app w));
  match t with
  | Some (S _ as id) => clearInterval id
  | _ => mret tt
  end ;;
  setMode IDLE.

Definition mp4Types : list string :=
  ["video/mp4;codecs=avc1"; "video/mp4"; "video/webm;codecs=h264"].

(** The encoding [startRecording] hands to the recorder. *)
Definition choose_mimeType (h : Host) (s : AppSettings) : string :=
  let mimeType := "video/webm;codecs=vp9" in
  match saveFormat s with
  | mp4 =>
      let supported := find (isTypeSupported h) mp4Types in
      if Js.truthy supported then default mimeType supported else mimeType
  | webm => mimeType
  end.

Definition startRecording (h : Host) : Act unit :=
  settings ← read (fun w => settings (app w));
  try_catch
    (let displayMediaOptions :=
       {| video_frameRate := Some (frameRate settings);
          video_displaySurface := None;
          audio := if audioEnabled settings then Some (true, true) else None |} in
     stream ← await_getDisplayMedia h displayMediaOptions;
     assign_streamRef (Some stream) ;;
     match getVideoTracks stream with
     | t :: _ => assign_onended t
     | [] => throw "TypeError"
     end ;;
     let mimeType := choose_mimeType h settings in
     recorder ← new_MediaRecorder h mimeType (videoBitrate settings);
     assign_mediaRecorderRef (Some recorder) ;;
     assign_chunksRef (fun _ => []) ;;
     recorder_start 1000 ;;
     setMode RECORDING ;;
     setRecordingTime (fun _ => 0%Z) ;;
     id ← setInterval 1000;
     assign_timerRef (Some id))
    (fun err =>
       console_error "Error starting capture:" ;;
       setMode IDLE).

(** [recorder.ondataavailable]. *)
Definition ondataavailable (data : Blob) : Act unit :=
  if (0 <? size data)%Z then assign_chunksRef (fun chunks => chunks ++ [data])
  else mret tt.

(** The interval's handler. *)
Definition tick : Act unit := setRecordingTime (fun t => t + 1)%Z.

(** The browser ends track [t] (the user dismisses the sharing bar) and
    fires its [ended] event. *)
Definition track_ended (t : nat) : Act unit :=
  on_browser (fun b =>
    {| live := live b ∖ {[t]}; intervals := intervals b; onended := onended b;
       next_track := next_track b; next_timer := next_timer b |}) ;;
  registered ← read (fun w => bool_decide (t ∈ onended (browser w)));
  if registered : bool then stopRecording else mret tt.

(** **** Screenshot *)

Definition takeScreenshot (h : Host) : Act unit :=
  try_catch
    (stream ← await_getDisplayMedia h
                {| video_frameRate := None;
                   video_displaySurface := Some "monitor";
                   audio := None |};
     (if video_plays h then mret tt else suspend) ;;
     (if context_2d h then
        let dataUrl := toDataURL h in
        setScreenshotSrc (Some dataUrl) ;;
        setMode SCREENSHOT_PREVIEW
      else mret tt) ;;
     forEach track_stop (getTracks stream))
    (fun err => console_error "Screenshot failed:").

(** **** What the recorder's events do *)

(** [new Blob(parts, { type })]: the parts one after the other. *)
Definition new_Blob (parts : list Blob) (t : string) : Blob :=
  {| size := fold_right Z.add 0%Z (map size parts); type := Js.toLowerCase t |}.

(** The anchor that is clicked to save a file: what it points at and the
    name it gives the file. *)
Record Anchor := { href : Blob; download : string }.

(** [recorder.onstop]. The settings are those of the render in which
    [startRecording] was called; [now] is [new Date().getTime()]. No state
    is set and the chunks stay in the ref. *)
Definition saveRecording (settings : AppSettings) (now : Z) (w : World) : Anchor :=
  let recorded := mimeType <$> mediaRecorderRef (app w) in
  let blob := new_Blob (chunksRef (app w))
                (if Js.truthy recorded then default "video/webm" recorded
                 else "video/webm") in
  let ext := match saveFormat settings with mp4 => "mp4" | webm => "webm" end in
  {| href := blob;
     download := ("recording-" ++ Js.number_toString now ++ "." ++ ext)%string |}.

(** The chunks the recorder hands over, one event each. *)
Definition feed (chunks : list Blob) : Act unit := forEach ondataavailable chunks.

(** The interval [id] comes due: its handler runs when it is still armed. *)
Definition interval_elapsed (id : nat) : Act unit :=
  armed ← read (fun w => bool_decide (id ∈ intervals (browser w)));
  if armed : bool then tick else mret tt.

(** **** Leaving the editor and the settings panel *)

(** [saveScreenshot], the editor's [onSave]. *)
Definition saveScreenshot (blob : Blob) (now : Z) : Act Anchor :=
  let a := {| href := blob;
              download := ("screenshot-" ++ Js.number_toString now ++ ".png")%string |} in
  setMode IDLE ;;
  setScreenshotSrc None ;;
  mret a.

(** The editor's [onDiscard]. *)
Definition onDiscard : Act unit :=
  setMode IDLE ;;
  setScreenshotSrc None.

(** The settings button, and the panel's [onClose]. *)
Definition openSettings : Act unit := setMode SETTINGS.

Definition onClose : Act unit := setMode IDLE.

(** **** components/SettingsPanel.tsx *)

(** What the user does in the panel: the audio switch, the two sliders
    (their values parsed as integers), the two format buttons, and either
    closing button. *)
Inductive PanelEvent :=
| AudioSwitched (checked : bool)
| FrameRateSlid (value : Z)
| BitrateSlid (value : Z)
| FormatClicked (format : SaveFormat)
| CloseClicked.

Definition panel (e : PanelEvent) : Act unit :=
  match e with
  | AudioSwitched checked => updateSettings key_audioEnabled checked
  | FrameRateSlid value => updateSettings key_frameRate value
  | BitrateSlid value => updateSettings key_videoBitrate value
  | FormatClicked format => updateSettings key_saveFormat format
  | CloseClicked => onClose
  end.

(** **** Formatting *)

Definition formatTime (seconds : Z) : string :=
  let mins := Js.floor_div seconds 60 in
  let secs := Js.remainder seconds 60 in
  (Js.padStart 2 "0" (Js.number_toString mins) ++ ":"
   ++ Js.padStart 2 "0" (Js.number_toString secs))%string.

(** **** Hotkeys *)

(** The callback bound to "ctrl+shift+r", in a render where the mode is
    [m]. *)
Definition record_hotkey (h : Host) (m : AppMode) : Act unit :=
  match m with
  | IDLE => startRecording h
  | RECORDING => stopRecording
  | _ => mret tt
  end.

(** The callback bound to "ctrl+shift+s". *)
Definition screenshot_hotkey (h : Host) (m : AppMode) : Act unit :=
  match m with
  | IDLE => takeScreenshot h
  | _ => mret tt
  end.

(** What a listener's actions amount to: whether the default action was
    suppressed, and the callback when it was invoked. *)
Definition perform (actions : list Hotkeys.Action) (callback : Act unit) : Act bool :=
  let invoked :=
    existsb (fun a => match a with Hotkeys.Callback => true | _ => false end)
            actions in
  let suppressed :=
    existsb (fun a => match a with Hotkeys.PreventDefault => true | _ => false end)
            actions in
  (if invoked then callback else mret tt) ;;
  mret suppressed.

(** A key-down event on the window: the two listeners run, in the order
    they were registered, with the callbacks of the current render. The
    result tells whether the default action was suppressed. *)
Definition keydown (h : Host) (event : Hotkeys.KeyboardEvent) : Act bool :=
  m ← read (fun w => mode (app w));
  r ← perform (Hotkeys.handleKeyDown "ctrl+shift+r" event) (record_hotkey h m);
  s ← perform (Hotkeys.handleKeyDown "ctrl+shift+s" event) (screenshot_hotkey h m);
  mret (r || s).

End App.


(** ** Vocabulary of the properties *)

Module Chord.

(** The pieces of a chord description, as written. *)
Definition pieces (keyCombo : string) : list string := Js.split "+" keyCombo.

(** A piece is a modifier when it spells ctrl, shift or alt in any case. *)
Definition is_modifier (piece : string) : bool :=
  Js.includes Hotkeys.modifiers (Js.toLowerCase piece).

(** The chord names [m] when one of its pieces spells it. *)
Definition names (keyCombo m : string) : bool :=
  existsb (fun piece => String.eqb (Js.toLowerCase piece) m) (pieces keyCombo).

Definition modifier_pieces (keyCombo : string) : list string :=
  List.filter is_modifier (pieces keyCombo).

Definition key_pieces (keyCombo : string) : list string :=
  List.filter (fun piece => negb (is_modifier piece)) (pieces keyCombo).

(** A chord is a set of modifiers and one key: no modifier is named
    twice, and exactly one piece, not empty, is not a modifier. *)
Definition well_formed (keyCombo : string) : bool :=
  bool_decide (NoDup (map Js.toLowerCase (modifier_pieces keyCombo)))
  && match key_pieces keyCombo with
     | [k] => negb (String.eqb k "")
     | _ => false
     end.

(** Every modifier the chord names is reported pressed by the event. *)
Definition modifiers_held (keyCombo : string) (ev : Hotkeys.KeyboardEvent) : bool :=
  implb (names keyCombo "ctrl") (Hotkeys.ctrlKey ev)
  && implb (names keyCombo "shift") (Hotkeys.shiftKey ev)
  && implb (names keyCombo "alt") (Hotkeys.altKey ev).

(** The handler fired: it suppressed the default action and invoked the
    callback. *)
Definition fires (actions : list Hotkeys.Action) : Prop :=
  actions = [Hotkeys.PreventDefault; Hotkeys.Callback].

(** How many of the three modifier names occur in a list. *)
Definition named_count (names : list string) : nat :=
  (Nat.b2n (bool_decide ("ctrl" ∈ names))
   + Nat.b2n (bool_decide ("shift" ∈ names))
   + Nat.b2n (bool_decide ("alt" ∈ names)))%nat.

(** The event's key is the key piece [K], up to case. *)
Definition key_matches (ev : Hotkeys.KeyboardEvent) (K : string) : Prop :=
  Js.toLowerCase (Hotkeys.key ev) = Js.toLowerCase K.

End Chord.

Module Release.

Import App.

(** The tracks of the stream the ref holds. *)
Definition held_tracks (w : World) : list nat :=
  match streamRef (app w) with
  | Some stream => getTracks stream
  | None => []
  end.

(** The interval timer the ref holds, when it holds one. *)
Definition held_timer (w : World) : list nat :=
  match timerRef (app w) with
  | Some (S n) => [S n]
  | _ => []
  end.

(** The ref holds a recorder that is not inactive. *)
Definition recorder_active (w : World) : bool :=
  match mediaRecorderRef (app w) with
  | Some recorder =>
      match state recorder with
      | inactive => false
      | _ => true
      end
  | None => false
  end.

(** Everything the refs hold has been let go: no held track is live and
    the held timer is not armed. *)
Definition released (w : World) : Prop :=
  (forall t, t ∈ held_tracks w -> t ∉ live (browser w))
  /\ (forall id, id ∈ held_timer w -> id ∉ intervals (browser w)).

(** In a log, every stop of a held track and the clearing of the held
    timer come before the last switch to idle. *)
Definition released_before_idle (w : World) (calls : list Call) : Prop :=
  exists before,
    calls = before ++ [call_setMode IDLE]
    /\ (forall t, t ∈ held_tracks w -> call_track_stop t ∈ before)
    /\ (forall id, id ∈ held_timer w -> call_clearInterval id ∈ before).

End Release.

Module Encoding.

Import App.

(** The encoding the recorder in the ref was made with. *)
Definition recorded_as (w : World) : option string :=
  mimeType <$> mediaRecorderRef (app w).

(** The first candidate, in the order of [mp4Types], that the host reports
    as supported. *)
Definition first_supported (h : Host) : option string :=
  find (isTypeSupported h) mp4Types.

(** Probing as the specification words it: the first supported candidate,
    and the default encoding when there is none. *)
Definition probed (h : Host) : string :=
  default "video/webm;codecs=vp9" (first_supported h).

(** The options [takeScreenshot] asks the capture with. *)
Definition screenshot_options : DisplayMediaStreamOptions :=
  {| video_frameRate := None;
     video_displaySurface := Some "monitor";
     audio := None |}.

(** The options [startRecording] asks the capture with. *)
Definition recording_options (s : AppSettings) : DisplayMediaStreamOptions :=
  {| video_frameRate := Some (frameRate s);
     video_displaySurface := None;
     audio := if audioEnabled s then Some (true, true) else None |}.

End Encoding.

Module Consistency.

(** The canvas shows the last snapshot of the history, when there is one. *)
Definition shows_last_snapshot (s : Editor.State) : Prop :=
  Editor.history s = []
  \/ last (Editor.history s) = Some (Editor.getImageData (Editor.canvas s)).

(** Every load among [evs] is of the image [img] into the container
    [container], so the canvas keeps the size of the first load and every
    snapshot is taken at that size. *)
Definition same_image (img : Editor.HTMLImageElement) (container : Editor.Container)
           (evs : list Editor.Event) : Prop :=
  Forall (fun ev => match ev with
                    | Editor.Loaded i k => i = img /\ k = container
                    | _ => True
                    end) evs.

(** The point a pointer event is at, as a line to it. *)
Definition line_to (e : Editor.Pointer) : Editor.PathCmd :=
  Editor.LineTo (x (Editor.getCoordinates e)) (y (Editor.getCoordinates e)).

(** The identifiers the browser has handed out are below the next ones, and
    timers are numbered from 1. *)
Definition well_numbered (w : App.World) : Prop :=
  (forall t, t ∈ App.live (App.browser w) -> t < App.next_track (App.browser w))
  /\ (forall id, id ∈ App.intervals (App.browser w)
                 -> id < App.next_timer (App.browser w))
  /\ 0 < App.next_timer (App.browser w).

End Consistency.

(** ** Concrete inputs, for the examples *)

Module Sample.

(** Stand-ins for the host's trigonometry: the examples draw rectangles and
    never evaluate them to a meaningful angle. *)
Definition atan2 (dy dx : float) : float := (dy / dx)%float.
Definition cos (a : float) : float := a.
Definition sin (a : float) : float := a.

(** A canvas whose top left corner is at (100, 50) in the viewport. *)
Definition at_client (cx cy : float) : Editor.Pointer :=
  {| Editor.event := Editor.MouseEvent cx cy;
     Editor.bounding := {| Editor.left := 100; Editor.top := 50 |} |}.

(** Press at canvas point (10, 10), move to (30, 30), then to (50, 40). *)
Definition press : Editor.Pointer := at_client 110 60.
Definition move1 : Editor.Pointer := at_client 130 80.
Definition move2 : Editor.Pointer := at_client 150 90.

(** A full-screen capture shown in a smaller window. *)
Definition image : Editor.HTMLImageElement :=
  {| Editor.src := "data:image/png;base64,iVBORw0KGgo=";
     Editor.img_width := 1920; Editor.img_height := 1080 |}.

Definition container : Editor.Container :=
  {| Editor.clientWidth := 1280; Editor.clientHeight := 720 |}.

(** The editor with its image loaded and the rectangle tool picked. *)
Definition loaded : Editor.State :=
  Editor.run atan2 cos sin
    [Editor.Loaded image container; Editor.SelectTool RECTANGLE] Editor.initial.

(** The editor as mounted, the image not loaded yet, with the rectangle
    tool picked. *)
Definition unloaded : Editor.State :=
  Editor.run atan2 cos sin [Editor.SelectTool RECTANGLE] Editor.initial.

(** A browser that records mp4 only: every encoding that starts with
    "video/mp4" is supported and taken by the recorder, nothing else is. *)
Definition mp4_only : App.Host :=
  {| App.getDisplayMedia := fun _ => Some false;
     App.isTypeSupported := fun t => String.prefix "video/mp4" t;
     App.recorder_accepts := fun t => String.prefix "video/mp4" t;
     App.video_plays := true;
     App.context_2d := true;
     App.toDataURL := "data:image/png;base64,iVBORw0KGgo=" |}.

(** A browser that supports every encoding it is asked about. *)
Definition supports_all : App.Host :=
  {| App.getDisplayMedia := fun _ => Some false;
     App.isTypeSupported := fun _ => true;
     App.recorder_accepts := fun _ => true;
     App.video_plays := true;
     App.context_2d := true;
     App.toDataURL := "data:image/png;base64,iVBORw0KGgo=" |}.

(** The user dismisses the capture picker. *)
Definition picker_cancelled : App.Host :=
  {| App.getDisplayMedia := fun _ => None;
     App.isTypeSupported := fun _ => true;
     App.recorder_accepts := fun _ => true;
     App.video_plays := true;
     App.context_2d := true;
     App.toDataURL := "data:image/png;base64,iVBORw0KGgo=" |}.

(** A browser whose hidden video never starts playing. *)
Definition video_stalls : App.Host :=
  {| App.getDisplayMedia := fun _ => Some false;
     App.isTypeSupported := fun _ => true;
     App.recorder_accepts := fun _ => true;
     App.video_plays := false;
     App.context_2d := true;
     App.toDataURL := "data:image/png;base64,iVBORw0KGgo=" |}.

(** A browser that records webm only: none of the mp4 candidates is
    supported, and the recorder takes "video/webm;codecs=vp9". *)
Definition webm_only : App.Host :=
  {| App.getDisplayMedia := fun _ => Some false;
     App.isTypeSupported := fun t => String.prefix "video/webm;codecs=vp" t;
     App.recorder_accepts := fun t => String.prefix "video/webm;codecs=vp" t;
     App.video_plays := true;
     App.context_2d := true;
     App.toDataURL := "data:image/png;base64,iVBORw0KGgo=" |}.

(** The editor with its image loaded and the pen, the tool it starts
    with. *)
Definition loaded_pen : Editor.State :=
  Editor.run atan2 cos sin [Editor.Loaded image container] Editor.initial.

(** The application after the user has picked WebM in the settings. *)
Definition webm_chosen : App.World :=
  App.after (App.updateSettings App.key_saveFormat webm) App.initial.

End Sample.

(** ** Hotkeys *)

Section HotkeyFacts.

Import Hotkeys Chord.

Lemma lower_char_plus (c : ascii) :
  Ascii.eqb (Js.lower_char c) "+" = Ascii.eqb c "+".
Proof.
  destruct c as [[] [] [] [] [] [] [] []]; reflexivity.
Qed.

Lemma split_toLowerCase (s : string) :
  Js.split "+" (Js.toLowerCase s) = map Js.toLowerCase (Js.split "+" s).
Proof.
  induction s as [|c s IH]; [reflexivity|].
  cbn [Js.toLowerCase Js.split]. rewrite lower_char_plus, IH.
  destruct (Ascii.eqb c "+"); [reflexivity|].
  destruct (Js.split "+" s); reflexivity.
Qed.

Lemma toLowerCase_empty (s : string) :
  String.eqb (Js.toLowerCase s) "" = String.eqb s "".
Proof. destruct s; reflexivity. Qed.

Lemma includes_keys (keyCombo m : string) :
  Js.includes (Js.split "+" (Js.toLowerCase keyCombo)) m = names keyCombo m.
Proof.
  unfold Js.includes, names, pieces. rewrite split_toLowerCase.
  induction (Js.split "+" keyCombo) as [|p ps IH]; [reflexivity|].
  cbn [map existsb]. rewrite IH. f_equal. apply String.eqb_sym.
Qed.

Lemma find_keys (ps : list string) :
  find (fun k => negb (Js.includes modifiers k)) (map Js.toLowerCase ps)
  = Js.toLowerCase <$> head (List.filter (fun p => negb (is_modifier p)) ps).
Proof.
  induction ps as [|p ps IH]; [reflexivity|].
  cbn [map find List.filter]. unfold is_modifier at 1.
  destruct (negb (Js.includes modifiers (Js.toLowerCase p))); [reflexivity|exact IH].
Qed.

Lemma names_elem_of (keyCombo m : string) :
  names keyCombo m = true <-> m ∈ map Js.toLowerCase (pieces keyCombo).
Proof.
  unfold names. rewrite existsb_exists, list_elem_of_fmap.
  split.
  - intros (p & Hin & Heq). apply String.eqb_eq in Heq.
    exists p. split; [congruence|]. now apply list_elem_of_In.
  - intros (p & -> & Hin). exists p. split; [now apply list_elem_of_In|].
    apply String.eqb_refl.
Qed.

Lemma includes_elem_of (xs : list string) (m : string) :
  Js.includes xs m = true <-> m ∈ xs.
Proof.
  unfold Js.includes. rewrite existsb_exists. split.
  - intros (p & Hin & Heq). apply String.eqb_eq in Heq. subst.
    now apply list_elem_of_In.
  - intros Hin. exists m. split; [now apply list_elem_of_In|apply String.eqb_refl].
Qed.

(** A piece spelling a modifier is among the modifier pieces. *)
Lemma modifier_named (keyCombo m : string) :
  m ∈ modifiers ->
  (m ∈ map Js.toLowerCase (pieces keyCombo)
   <-> m ∈ map Js.toLowerCase (modifier_pieces keyCombo)).
Proof.
  intros Hm. unfold modifier_pieces. rewrite !list_elem_of_fmap. split.
  - intros (p & -> & Hin). exists p. split; [reflexivity|].
    apply list_elem_of_In, filter_In. split; [now apply list_elem_of_In|].
    unfold is_modifier. now apply includes_elem_of.
  - intros (p & -> & Hin). exists p. split; [reflexivity|].
    apply list_elem_of_In in Hin. apply filter_In in Hin.
    now apply list_elem_of_In.
Qed.

Lemma modifier_pieces_spelled (keyCombo m : string) :
  m ∈ map Js.toLowerCase (modifier_pieces keyCombo) -> m ∈ modifiers.
Proof.
  unfold modifier_pieces. rewrite list_elem_of_fmap.
  intros (p & -> & Hin). apply list_elem_of_In, filter_In in Hin.
  destruct Hin as [_ Hin]. now apply includes_elem_of.
Qed.

(** Distinct modifier names are counted by which of the three occur. *)
Lemma distinct_modifiers_length (names : list string) :
  NoDup names -> (forall m, m ∈ names -> m ∈ modifiers) ->
  length names
  = (Nat.b2n (bool_decide ("ctrl" ∈ names))
     + Nat.b2n (bool_decide ("shift" ∈ names))
     + Nat.b2n (bool_decide ("alt" ∈ names)))%nat.
Proof.
  intros Hnd Hsub.
  assert (Hperm : names ≡ₚ base.filter (fun m => m ∈ names) modifiers).
  { apply NoDup_Permutation; [assumption| |].
    - apply NoDup_filter, NoDup_ListNoDup. unfold modifiers.
      repeat constructor; cbn; intuition congruence.
    - intros m. rewrite list_elem_of_filter. split; [|tauto].
      intros Hin. split; [assumption|now apply Hsub]. }
  rewrite (Permutation_length Hperm). unfold modifiers.
  rewrite !filter_cons, filter_nil.
  repeat case_bool_decide; repeat case_decide; try tauto; reflexivity.
Qed.

Lemma pieces_partition (keyCombo : string) :
  length (pieces keyCombo)
  = (length (modifier_pieces keyCombo) + length (key_pieces keyCombo))%nat.
Proof.
  unfold modifier_pieces, key_pieces.
  induction (pieces keyCombo) as [|p ps IH]; [reflexivity|].
  cbn [List.filter]. destruct (is_modifier p); cbn [negb length]; lia.
Qed.

Lemma names_bool_decide (keyCombo m : string) :
  m ∈ modifiers ->
  names keyCombo m
  = bool_decide (m ∈ map Js.toLowerCase (modifier_pieces keyCombo)).
Proof.
  intros Hm. apply eq_true_iff_eq.
  rewrite names_elem_of, bool_decide_eq_true. now apply modifier_named.
Qed.

Lemma well_formed_length (keyCombo K : string) :
  well_formed keyCombo = true ->
  key_pieces keyCombo = [K] ->
  length (pieces keyCombo)
  = S (Nat.b2n (names keyCombo "ctrl") + Nat.b2n (names keyCombo "shift")
       + Nat.b2n (names keyCombo "alt"))
  /\ String.eqb K "" = false.
Proof.
  unfold well_formed. intros Hwf HK. rewrite HK in Hwf.
  apply andb_prop in Hwf as [Hnd Hne]. apply bool_decide_eq_true in Hnd.
  split; [|now apply negb_true_iff].
  rewrite pieces_partition, HK. cbn [length].
  rewrite <- (length_map Js.toLowerCase (modifier_pieces keyCombo)).
  rewrite (distinct_modifiers_length _ Hnd (modifier_pieces_spelled keyCombo)).
  rewrite !names_bool_decide by (unfold modifiers; set_solver).
  lia.
Qed.

(** How the handler decides, once the chord is known to be well formed. *)
Lemma handleKeyDown_well_formed (keyCombo K : string) (ev : KeyboardEvent) :
  well_formed keyCombo = true ->
  key_pieces keyCombo = [K] ->
  handleKeyDown keyCombo ev
  = if modifiers_held keyCombo ev
       && String.eqb (Js.toLowerCase (key ev)) (Js.toLowerCase K)
    then [PreventDefault; Callback] else [].
Proof.
  intros Hwf HK. destruct (well_formed_length _ _ Hwf HK) as [Hlen HKne].
  unfold handleKeyDown. rewrite !includes_keys.
  rewrite split_toLowerCase, find_keys, length_map.
  fold (pieces keyCombo). fold (key_pieces keyCombo). rewrite HK, Hlen.
  cbn [head fmap option_fmap option_map Js.truthy Js.strict_eq].
  rewrite toLowerCase_empty, HKne. cbn [negb andb].
  unfold modifiers_held.
  destruct (names keyCombo "ctrl"), (names keyCombo "shift"), (names keyCombo "alt"),
    (ctrlKey ev), (shiftKey ev), (altKey ev),
    (String.eqb (Js.toLowerCase (key ev)) (Js.toLowerCase K)); reflexivity.
Qed.



(** A modifier the chord does not name is not consulted. *)
Lemma handleKeyDown_ignores_alt (keyCombo : string) (ev : KeyboardEvent) (held : bool) :
  names keyCombo "alt" = false ->
  handleKeyDown keyCombo
    {| ctrlKey := ctrlKey ev; shiftKey := shiftKey ev; altKey := held;
       metaKey := metaKey ev; key := key ev |}
  = handleKeyDown keyCombo ev.
Proof.
  intros Hn. unfold handleKeyDown. rewrite !includes_keys, Hn. reflexivity.
Qed.



(** C8: some key-down event fires a chord while a modifier the chord does
    not name is held too: "ctrl+shift+r" fires on ctrl+shift+alt+r, since
    for this chord the handler never reads altKey (nor, for any chord,
    metaKey). *)
Theorem hotkey_fires_with_extra_modifier :
  (exists ev, altKey ev = true
              /\ names "ctrl+shift+r" "alt" = false
              /\ fires (handleKeyDown "ctrl+shift+r" ev))
  /\ fires (handleKeyDown "ctrl+shift+r"
              {| ctrlKey := true; shiftKey := true; altKey := true;
                 metaKey := false; key := "r" |})
  /\ (forall ev held,
        handleKeyDown "ctrl+shift+r"
          {| ctrlKey := ctrlKey ev; shiftKey := shiftKey ev; altKey := held;
             metaKey := metaKey ev; key := key ev |}
        = handleKeyDown "ctrl+shift+r" ev)
  /\ (forall keyCombo ev held,
        handleKeyDown keyCombo
          {| ctrlKey := ctrlKey ev; shiftKey := shiftKey ev; altKey := altKey ev;
             metaKey := held; key := key ev |}
        = handleKeyDown keyCombo ev).
Proof.
  split; [|split; [reflexivity|split]].
  - exists {| ctrlKey := true; shiftKey := true; altKey := true;
              metaKey := false; key := "r" |}.
    repeat split.
  - intros ev held. now apply handleKeyDown_ignores_alt.
  - intros keyCombo ev held. reflexivity.
Qed.

End HotkeyFacts.


(** ** The annotation editor *)

Section EditorFacts.

Import Editor.

Variable Math_atan2 : float -> float -> float.
Variables Math_cos Math_sin : float -> float.

Local Abbreviation draw_calls := (Editor.draw_calls Math_atan2 Math_cos Math_sin).
Local Abbreviation draw := (Editor.draw Math_atan2 Math_cos Math_sin).
Local Abbreviation gesture := (Editor.gesture Math_atan2 Math_cos Math_sin).
Local Abbreviation gestures := (Editor.gestures Math_atan2 Math_cos Math_sin).
Local Abbreviation step := (Editor.step Math_atan2 Math_cos Math_sin).
Local Abbreviation run := (Editor.run Math_atan2 Math_cos Math_sin).

(** *** The history under [saveState] *)

Lemma slice_last_length {A} (n : nat) (xs : list A) :
  length (Js.slice_last n xs) = Nat.min n (length xs).
Proof. unfold Js.slice_last. rewrite length_drop. lia. Qed.

Lemma slice_last_short {A} (n : nat) (xs : list A) :
  length xs <= n -> Js.slice_last n xs = xs.
Proof.
  intros Hle. unfold Js.slice_last.
  replace (length xs - n)%nat with 0%nat by lia. reflexivity.
Qed.

Lemma slice_last_full {A} (n : nat) (xs : list A) :
  length xs = S n -> Js.slice_last n xs = tail xs.
Proof.
  intros Hlen. unfold Js.slice_last.
  replace (length xs - n)%nat with 1%nat by lia.
  destruct xs; reflexivity.
Qed.

Lemma saveState_history (s : State) :
  history (saveState s)
  = Js.slice_last 10 (history s) ++ [getImageData (canvas s)].
Proof. reflexivity. Qed.

Lemma saveState_length (s : State) :
  length (history (saveState s)) = S (Nat.min 10 (length (history s))).
Proof.
  rewrite saveState_history, length_app, slice_last_length. cbn [length]. lia.
Qed.

(** *** What a move leaves alone *)

Lemma draw_frame (s : State) (e : Pointer) :
  history (draw s e) = history s
  /\ isDrawing (draw s e) = isDrawing s
  /\ startPoint (draw s e) = startPoint s
  /\ selectedTool (draw s e) = selectedTool s
  /\ color (draw s e) = color s
  /\ lineWidth (draw s e) = lineWidth s.
Proof. repeat split. Qed.

Lemma moves_frame (moves : list Pointer) (s : State) :
  history (fold_left draw moves s) = history s
  /\ isDrawing (fold_left draw moves s) = isDrawing s
  /\ startPoint (fold_left draw moves s) = startPoint s
  /\ selectedTool (fold_left draw moves s) = selectedTool s
  /\ color (fold_left draw moves s) = color s
  /\ lineWidth (fold_left draw moves s) = lineWidth s.
Proof.
  revert s. induction moves as [|e moves IH]; intros s; [repeat split|].
  cbn [fold_left]. destruct (IH (draw s e)) as (H1 & H2 & H3 & H4 & H5 & H6).
  rewrite H1, H2, H3, H4, H5, H6. repeat split.
Qed.

Lemma gesture_history (press : Pointer) (moves : list Pointer) (s : State) :
  history (gesture press moves s)
  = Js.slice_last 10 (history s)
    ++ [getImageData (canvas (fold_left draw moves (startDrawing press s)))].
Proof.
  unfold Editor.gesture, endDrawing.
  destruct (moves_frame moves (startDrawing press s)) as (Hh & Hd & _).
  rewrite Hd. cbn [startDrawing issue on_canvas isDrawing setStartPoint setIsDrawing negb].
  rewrite saveState_history. cbn [setStartPoint setIsDrawing history canvas].
  rewrite Hh. reflexivity.
Qed.

Lemma gesture_length (press : Pointer) (moves : list Pointer) (s : State) :
  length (history (gesture press moves s)) = S (Nat.min 10 (length (history s))).
Proof.
  rewrite gesture_history, length_app, slice_last_length. cbn [length]. lia.
Qed.

Lemma gestures_length (strokes : list (Pointer * list Pointer)) (s : State) :
  strokes <> [] ->
  length (history (gestures strokes s))
  = Nat.min (Nat.min (length (history s)) 10 + length strokes) 11.
Proof.
  revert s. induction strokes as [|[press moves] strokes IH]; intros s Hne; [congruence|].
  unfold Editor.gestures. cbn [fold_left fst snd].
  destruct strokes as [|stroke strokes].
  - cbn [fold_left length]. rewrite gesture_length. lia.
  - specialize (IH (gesture press moves s) ltac:(discriminate)).
    unfold Editor.gestures in IH. rewrite IH, gesture_length. cbn [length]. lia.
Qed.

(** *** Undo *)

Lemma undo_short (s : State) : length (history s) <= 1 -> undo s = s.
Proof.
  intros Hle. unfold undo.
  destruct (Nat.ltb_spec 1 (length (history s))); [lia|reflexivity].
Qed.

Lemma undo_pops (s : State) (older : list ImageData) (below top : ImageData) :
  history s = older ++ [below; top] ->
  undo s
  = issue [putImageData below 0 0] (setHistory (fun _ => older ++ [below]) s).
Proof.
  intros Hh. unfold undo. rewrite Hh.
  replace (older ++ [below; top]) with ((older ++ [below]) ++ [top])
    by (rewrite <- app_assoc; reflexivity).
  rewrite removelast_last, last_snoc.
  destruct (Nat.ltb_spec 1 (length ((older ++ [below]) ++ [top]))) as [_|Hle];
    [reflexivity|].
  rewrite !length_app in Hle. cbn [length] in Hle. lia.
Qed.

(** A history of two or more ends in a snapshot with one beneath it. *)
Lemma two_last {A} (xs : list A) :
  1 < length xs -> exists older below top, xs = older ++ [below; top].
Proof.
  intros Hlen.
  destruct (exists_last (l := xs)) as (xs' & top & ->);
    [intros ->; cbn in Hlen; lia|].
  rewrite length_app in Hlen. cbn [length] in Hlen.
  destruct (exists_last (l := xs')) as (older & below & ->);
    [intros ->; cbn in Hlen; lia|].
  exists older, below, top. rewrite <- app_assoc. reflexivity.
Qed.

Lemma undo_length (s : State) :
  length (history (undo s))
  = Nat.max (Nat.min 1 (length (history s))) (length (history s) - 1).
Proof.
  destruct (Nat.le_gt_cases (length (history s)) 1) as [Hle|Hgt].
  - rewrite (undo_short s Hle). lia.
  - destruct (two_last _ Hgt) as (older & below & top & Hh).
    rewrite (undo_pops s _ _ _ Hh), Hh. cbn [issue on_canvas setHistory history].
    rewrite !length_app. cbn [length]. lia.
Qed.

Lemma undo_iter_length (n : nat) (s : State) :
  1 <= length (history s) ->
  length (history (Nat.iter n undo s)) = Nat.max 1 (length (history s) - n).
Proof.
  intros Hlen. induction n as [|n IH]; [cbn [Nat.iter nat_rect]; lia|].
  cbn [Nat.iter nat_rect]. fold (Nat.iter n undo s). rewrite undo_length, IH. lia.
Qed.

Lemma undo_iter_stable (n m : nat) (s : State) :
  length (history s) <= S n -> n <= m ->
  Nat.iter m undo s = Nat.iter n undo s.
Proof.
  intros Hlen Hnm. induction Hnm as [|m Hnm IH]; [reflexivity|].
  cbn [Nat.iter nat_rect]. fold (Nat.iter m undo s). rewrite IH.
  apply undo_short.
  destruct (Nat.eq_dec (length (history s)) 0) as [Hz|Hz].
  - clear IH. induction n as [|n IHn]; [cbn; lia|].
    cbn [Nat.iter nat_rect]. fold (Nat.iter n undo s). rewrite undo_length. lia.
  - rewrite undo_iter_length by lia. lia.
Qed.

(** *** Every step keeps the history within its cap *)

Lemma onload_length (img : HTMLImageElement) (container : Container) (s : State) :
  length (history (onload img container s)) = S (Nat.min 10 (length (history s))).
Proof.
  unfold onload.
  match goal with |- context [let '(_, _) := ?p in _] => destruct p end.
  rewrite saveState_length. reflexivity.
Qed.

Lemma endDrawing_length (s : State) :
  length (history s) <= 11 -> length (history (endDrawing s)) <= 11.
Proof.
  unfold endDrawing. destruct (isDrawing s); cbn [negb].
  - rewrite saveState_length.
    change (history (setStartPoint None (setIsDrawing false s))) with (history s).
    lia.
  - lia.
Qed.

Lemma step_length (s : State) (ev : Event) :
  length (history s) <= 11 -> length (history (step s ev)) <= 11.
Proof.
  intros Hle. destruct ev; cbn [Editor.step]; try exact Hle.
  - rewrite onload_length. lia.
  - now apply endDrawing_length.
  - rewrite undo_length. lia.
Qed.

Lemma run_length (evs : list Event) (s : State) :
  length (history s) <= 11 -> length (history (run evs s)) <= 11.
Proof.
  revert s. induction evs as [|ev evs IH]; intros s Hle; [exact Hle|].
  unfold Editor.run. cbn [fold_left]. apply IH. now apply step_length.
Qed.

(** C2: the undo history never holds more than 11 snapshots, in any state
    the editor reaches and after any committed strokes; a commit on a full
    history drops the oldest snapshot; after 15 committed strokes the
    history holds 11, each of the first 10 undos removes one, and every
    further undo changes nothing. *)
Theorem history_capped_at_eleven :
  (forall evs, length (history (run evs initial)) <= 11)
  /\ (forall s strokes, strokes <> [] -> length (history (gestures strokes s)) <= 11)
  /\ (forall s, length (history s) = 11 ->
        history (saveState s) = tail (history s) ++ [getImageData (canvas s)])
  /\ (forall s strokes, length strokes = 15 ->
        length (history (gestures strokes s)) = 11
        /\ (forall n, length (history (Nat.iter n undo (gestures strokes s)))
                      = Nat.max 1 (11 - n))
        /\ (forall n, 10 <= n ->
              Nat.iter n undo (gestures strokes s)
              = Nat.iter 10 undo (gestures strokes s))).
Proof.
  split; [|split; [|split]].
  - intros evs. apply run_length. cbn. lia.
  - intros s strokes Hne. rewrite gestures_length by assumption. lia.
  - intros s Hlen. rewrite saveState_history, slice_last_full by assumption.
    reflexivity.
  - intros s strokes Hlen.
    assert (H11 : length (history (gestures strokes s)) = 11).
    { rewrite gestures_length by (intros ->; discriminate). lia. }
    split; [exact H11|]. split.
    + intros n. rewrite undo_iter_length by lia. rewrite H11. reflexivity.
    + intros n Hn. apply undo_iter_stable; lia.
Qed.


(** *** A gesture *)

Lemma draw_pen_style (s : State) (e : Pointer) :
  lineCap (canvas (draw s e)) = lineCap (canvas s)
  /\ lineJoin (canvas (draw s e)) = lineJoin (canvas s).
Proof.
  unfold Editor.draw, Editor.draw_calls.
  destruct (isDrawing s), (startPoint s), (selectedTool s), (last (history s));
    split; reflexivity.
Qed.

Lemma moves_pen_style (moves : list Pointer) (s : State) :
  lineCap (canvas (fold_left draw moves s)) = lineCap (canvas s)
  /\ lineJoin (canvas (fold_left draw moves s)) = lineJoin (canvas s).
Proof.
  revert s. induction moves as [|e moves IH]; intros s; [split; reflexivity|].
  cbn [fold_left]. destruct (IH (draw s e)) as [-> ->]. apply draw_pen_style.
Qed.

(** The state in the middle of a gesture, after some of its moves. *)
Lemma mid_gesture (press : Pointer) (moves : list Pointer) (s : State) :
  let mid := fold_left draw moves (startDrawing press s) in
  history mid = history s
  /\ isDrawing mid = true
  /\ startPoint mid = Some (getCoordinates press)
  /\ selectedTool mid = selectedTool s
  /\ color mid = color s
  /\ lineWidth mid = lineWidth s
  /\ lineCap (canvas mid) = "round"
  /\ lineJoin (canvas mid) = "round".
Proof.
  intros mid. subst mid.
  destruct (moves_frame moves (startDrawing press s)) as (-> & -> & -> & -> & -> & ->).
  destruct (moves_pen_style moves (startDrawing press s)) as [-> ->].
  repeat split.
Qed.

(** C6, as the code has it: a gesture appends exactly one snapshot to the
    history, when it is released: the history after it is the last ten
    entries of the history before (all of them when there are at most ten)
    followed by the canvas as the release finds it; the press and the moves
    leave the history as it was. With the rectangle or the arrow selected
    and a history that is not empty, each move first puts the snapshot that
    was last in the history when the stroke began back on the canvas and
    then draws the preview on it; with an empty history no move puts
    anything back. *)
Theorem gesture_commits_once (press : Pointer) (moves : list Pointer) (s : State) :
  history (gesture press moves s)
  = Js.slice_last 10 (history s)
    ++ [getImageData (canvas (fold_left draw moves (startDrawing press s)))]
  /\ (length (history s) <= 10 ->
      history (gesture press moves s)
      = history s
        ++ [getImageData (canvas (fold_left draw moves (startDrawing press s)))])
  /\ history (startDrawing press s) = history s
  /\ (forall k, history (fold_left draw (take k moves) (startDrawing press s))
                = history s)
  /\ (forall older snap k e,
        history s = older ++ [snap] ->
        selectedTool s = RECTANGLE \/ selectedTool s = ARROW ->
        moves !! k = Some e ->
        let mid := fold_left draw (take k moves) (startDrawing press s) in
        let p0 := getCoordinates press in
        let p := getCoordinates e in
        exists redraw,
          draw_calls mid e = putImageData snap 0 0 :: redraw
          /\ restores_first (draw_calls mid e) = true
          /\ last redraw = Some stroke
          /\ Forall (fun c => is_restore c = false) redraw
          /\ (selectedTool s = RECTANGLE ->
              getImageData (canvas (draw mid e))
              = Stroked snap
                  [RectTo (x p0) (y p0) (x p - x p0) (y p - y p0)]
                  (color s) (lineWidth s) "round" "round")
          /\ (selectedTool s = ARROW ->
              exists shaft head,
                getImageData (canvas (draw mid e))
                = Stroked
                    (Stroked snap shaft (color s) (lineWidth s) "round" "round")
                    head (color s) (lineWidth s) "round" "round"))
  /\ (forall k e,
        history s = [] ->
        moves !! k = Some e ->
        Forall (fun c => is_restore c = false)
          (draw_calls (fold_left draw (take k moves) (startDrawing press s)) e)).
Proof.
  split; [apply gesture_history|]. split; [|split; [reflexivity|split; [|split]]].
  - intros Hlen. rewrite gesture_history, slice_last_short by assumption.
    reflexivity.
  - intros k. apply (mid_gesture press (take k moves) s).
  - intros older snap k e Hh Htool _ mid p0 p.
    destruct (mid_gesture press (take k moves) s)
      as (Hhist & Hdraw & Hstart & Hsel & Hcol & Hlw & Hcap & Hjoin).
    fold mid in Hhist, Hdraw, Hstart, Hsel, Hcol, Hlw, Hcap, Hjoin.
    unfold Editor.draw, Editor.draw_calls, issue, on_canvas, getImageData.
    cbn [canvas]. rewrite Hdraw, Hstart, Hsel, Hhist, Hh, last_snoc, Hcol, Hlw.
    destruct Htool as [-> | ->]; eexists; (split; [reflexivity|]).
    + split; [reflexivity|]. split; [reflexivity|]. split; [repeat constructor|].
      split; [|discriminate]. intros _.
      cbn. rewrite Hcap, Hjoin. reflexivity.
    + split; [reflexivity|]. split; [reflexivity|]. split; [repeat constructor|].
      split; [discriminate|]. intros _.
      cbn. rewrite Hcap, Hjoin. eexists _, _. reflexivity.
  - intros k e Hh _.
    destruct (mid_gesture press (take k moves) s)
      as (Hhist & Hdraw & Hstart & Hsel & _).
    unfold Editor.draw_calls. rewrite Hdraw, Hstart, Hsel, Hhist, Hh.
    destruct (selectedTool s); repeat constructor.
Qed.

End EditorFacts.


(** ** The application shell *)

Section AppFacts.

Import App Release.

(** *** Stopping *)

(** Run the primitive actions of a handler on a world given by its
    fields, leaving sets and lists alone. *)
Ltac act :=
  cbv beta iota zeta delta
    [mbind mret Act_bind Act_ret fmap option_fmap option_map
     call on_app on_browser read throw suspend try_catch after
     setMode setSettings setRecordingTime setScreenshotSrc
     assign_mediaRecorderRef assign_streamRef assign_chunksRef assign_timerRef
     assign_onended track_stop new_MediaRecorder with_state
     recorder_start recorder_stop setInterval clearInterval console_error
     updateSettings getVideoTracks
     app browser log fst snd
     mode settings recordingTime screenshotSrc mediaRecorderRef streamRef
     chunksRef timerRef
     live intervals onended next_track next_timer
     state mimeType videoBitsPerSecond videoTracks audioTracks].

(** Run a handler up to the questions it puts to the host, so that their
    answers can be filled in before the rest is run. *)
Ltac ask :=
  cbv beta iota zeta delta
    [startRecording takeScreenshot await_getDisplayMedia new_MediaRecorder
     mbind Act_bind read try_catch call after
     app browser log fst snd
     mode settings recordingTime screenshotSrc mediaRecorderRef streamRef
     chunksRef timerRef
     live intervals onended next_track next_timer].

(** Name the fields of a world. *)
Ltac fields w :=
  destruct w as [[?m ?st ?rt ?ss ?mr ?sr ?ch ?tr] [?lv ?iv ?oe ?nt ?nm] ?lg];
  cbn [app browser log
       mode settings recordingTime screenshotSrc mediaRecorderRef streamRef
       chunksRef timerRef
       live intervals onended next_track next_timer] in *.

Lemma forEach_track_stop (ts : list nat) (w : World) :
  forEach track_stop ts w
  = (Returned tt,
     {| app := app w;
        browser :=
          {| live := live (browser w) ∖ list_to_set ts;
             intervals := intervals (browser w);
             onended := onended (browser w);
             next_track := next_track (browser w);
             next_timer := next_timer (browser w) |};
        log := log w ++ map call_track_stop ts |}).
Proof.
  revert w. induction ts as [|t ts IH]; intros [a [lv iv oe nt nm] lg].
  - cbn [forEach map list_to_set]. act. rewrite app_nil_r. do 3 f_equal. set_solver.
  - cbn [forEach]. unfold mbind, Act_bind at 1.
    change (track_stop t ?w) with
      (Returned tt,
       {| app := app w;
          browser :=
            {| live := live (browser w) ∖ {[t]};
               intervals := intervals (browser w);
               onended := onended (browser w);
               next_track := next_track (browser w);
               next_timer := next_timer (browser w) |};
          log := log w ++ [call_track_stop t] |}).
    cbv beta iota. rewrite IH. act. cbn [map].
    rewrite <- app_assoc. do 3 f_equal. set_solver.
Qed.

(** What [stopRecording] does, in one equation: the recorder is stopped
    when it is active, the held tracks are stopped, the held timer is
    cleared, and then the mode is idle. *)
Lemma stopRecording_run (w : World) :
  stopRecording w
  = (Returned tt,
     {| app :=
          {| mode := IDLE;
             settings := settings (app w);
             recordingTime := recordingTime (app w);
             screenshotSrc := screenshotSrc (app w);
             mediaRecorderRef :=
               if recorder_active w
               then with_state inactive <$> mediaRecorderRef (app w)
               else mediaRecorderRef (app w);
             streamRef := streamRef (app w);
             chunksRef := chunksRef (app w);
             timerRef := timerRef (app w) |};
        browser :=
          {| live := live (browser w) ∖ list_to_set (held_tracks w);
             intervals := intervals (browser w) ∖ list_to_set (held_timer w);
             onended := onended (browser w);
             next_track := next_track (browser w);
             next_timer := next_timer (browser w) |};
        log :=
          log w
          ++ (if recorder_active w then [call_recorder_stop] else [])
          ++ map call_track_stop (held_tracks w)
          ++ map call_clearInterval (held_timer w)
          ++ [call_setMode IDLE] |}).
Proof.
  destruct w as [[m st rt ss mr sr ch tr] [lv iv oe nt nm] lg].
  unfold stopRecording, recorder_active, held_tracks, held_timer.
  destruct mr as [[[] mime bits]|], sr as [stream|], tr as [[|id]|];
    act; rewrite ?forEach_track_stop; act; cbn [map list_to_set];
    rewrite ?app_nil_r, <- ?app_assoc; cbn [List.app];
    repeat f_equal; set_solver.
Qed.

Lemma stopRecording_held (w : World) :
  held_tracks (after stopRecording w) = held_tracks w
  /\ held_timer (after stopRecording w) = held_timer w.
Proof.
  unfold after. rewrite stopRecording_run. split; reflexivity.
Qed.

(** The stop button: everything held is released, and released before the
    mode is set to idle. *)
Lemma stopRecording_releases (w : World) :
  mode (app (after stopRecording w)) = IDLE
  /\ released (after stopRecording w)
  /\ exists calls,
       log (after stopRecording w) = log w ++ calls
       /\ released_before_idle w calls.
Proof.
  unfold after. rewrite stopRecording_run. cbn [snd].
  split; [reflexivity|]. split; [split|].
  - intros t Ht. cbn [browser live]. change (t ∈ held_tracks w) in Ht. set_solver.
  - intros id Hid. cbn [browser intervals]. change (id ∈ held_timer w) in Hid.
    set_solver.
  - eexists. cbn [log]. split; [reflexivity|].
    exists ((if recorder_active w then [call_recorder_stop] else [])
            ++ map call_track_stop (held_tracks w)
            ++ map call_clearInterval (held_timer w)).
    split; [rewrite <- !app_assoc; reflexivity|]. split.
    + intros t Ht. rewrite !elem_of_app. right. left.
      apply list_elem_of_fmap. now exists t.
    + intros id Hid. rewrite !elem_of_app. right. right.
      apply list_elem_of_fmap. now exists id.
Qed.

(** Stopping a world that is already stopped and released changes nothing
    but the log. *)
Lemma stopRecording_noop (w : World) :
  recorder_active w = false -> released w -> mode (app w) = IDLE ->
  app (after stopRecording w) = app w
  /\ browser (after stopRecording w) = browser w.
Proof.
  intros Hrec [Htracks Htimer] Hmode. unfold after. rewrite stopRecording_run.
  cbn [snd app browser]. rewrite Hrec.
  destruct w as [[m st rt ss mr sr ch tr] [lv iv oe nt nm] lg].
  cbn [app browser mode settings recordingTime screenshotSrc mediaRecorderRef
       streamRef chunksRef timerRef live intervals onended next_track next_timer] in *.
  subst m. split; [reflexivity|]. f_equal; set_solver.
Qed.

(** C10: a second [stopRecording] finds the recorder inactive and
    everything released, returns, and leaves the component and the browser
    exactly as the first one left them, the mode idle; it does not stop the
    recorder again. *)
Theorem stopRecording_idempotent (w : World) :
  app (after stopRecording (after stopRecording w)) = app (after stopRecording w)
  /\ browser (after stopRecording (after stopRecording w))
     = browser (after stopRecording w)
  /\ mode (app (after stopRecording (after stopRecording w))) = IDLE
  /\ fst (stopRecording (after stopRecording w)) = Returned tt
  /\ recorder_active (after stopRecording w) = false
  /\ released (after stopRecording w)
  /\ log (after stopRecording (after stopRecording w))
     = log (after stopRecording w)
       ++ map call_track_stop (held_tracks w)
       ++ map call_clearInterval (held_timer w)
       ++ [call_setMode IDLE].
Proof.
  destruct (stopRecording_releases w) as (Hmode & Hrel & _).
  assert (Hrec : recorder_active (after stopRecording w) = false).
  { unfold after. rewrite stopRecording_run. unfold recorder_active.
    cbn [snd app mediaRecorderRef].
    destruct (mediaRecorderRef (app w)) as [[[] mime bits]|]; reflexivity. }
  destruct (stopRecording_noop _ Hrec Hrel Hmode) as [Happ Hbrowser].
  split; [exact Happ|]. split; [exact Hbrowser|].
  split; [rewrite Happ; exact Hmode|].
  split; [rewrite stopRecording_run; reflexivity|].
  split; [exact Hrec|]. split; [exact Hrel|].
  destruct (stopRecording_held w) as [Ht Hi].
  unfold after at 1. rewrite stopRecording_run. cbn [snd log].
  rewrite Hrec, Ht, Hi. reflexivity.
Qed.

(** The browser ends a track whose [onended] is set: the same release, by
    the same handler. *)
Lemma track_ended_releases (t : nat) (w : World) :
  t ∈ onended (browser w) ->
  mode (app (after (track_ended t) w)) = IDLE
  /\ released (after (track_ended t) w)
  /\ exists calls,
       log (after (track_ended t) w) = log w ++ calls
       /\ released_before_idle w calls.
Proof.
  intros Hreg.
  pose (w0 := {| app := app w;
                 browser :=
                   {| live := live (browser w) ∖ {[t]};
                      intervals := intervals (browser w);
                      onended := onended (browser w);
                      next_track := next_track (browser w);
                      next_timer := next_timer (browser w) |};
                 log := log w |}).
  assert (Hrun : after (track_ended t) w = after stopRecording w0).
  { subst w0. unfold track_ended, after. cbn [mbind Act_bind].
    unfold mbind, Act_bind, on_browser, read. cbn [browser onended].
    rewrite (bool_decide_eq_true_2 _ Hreg). reflexivity. }
  rewrite Hrun. exact (stopRecording_releases w0).
Qed.

(** *** Starting *)

(** The three ways [startRecording] ends: the picker is dismissed; the
    stream comes but the recorder cannot be made; the recording starts. *)
Lemma startRecording_cancelled (h : Host) (w : World) :
  getDisplayMedia h (Encoding.recording_options (settings (app w))) = None ->
  app (after (startRecording h) w) = app (after (setMode IDLE) w)
  /\ browser (after (startRecording h) w) = browser w.
Proof.
  intros Hno. unfold Encoding.recording_options in Hno. fields w.
  ask. rewrite Hno. act. split; reflexivity.
Qed.

Lemma startRecording_refused (h : Host) (w : World) (with_audio : bool) :
  getDisplayMedia h (Encoding.recording_options (settings (app w))) = Some with_audio ->
  recorder_accepts h (choose_mimeType h (settings (app w))) = false ->
  let w' := after (startRecording h) w in
  mode (app w') = IDLE
  /\ (exists stream, streamRef (app w') = Some stream
                     /\ getVideoTracks stream = [next_track (browser w)])
  /\ next_track (browser w) ∈ live (browser w')
  /\ (forall t, call_track_stop t ∉ drop (length (log w)) (log w')).
Proof.
  intros Hyes Hno. unfold Encoding.recording_options in Hyes. fields w.
  ask. rewrite Hyes, Hno. act.
  split; [reflexivity|]. split; [eexists; split; reflexivity|]. split.
  - cbn [getTracks videoTracks audioTracks List.app list_to_set]. set_solver.
  - intros t. rewrite <- !app_assoc, drop_app_length. cbn [List.app].
    rewrite !elem_of_cons, elem_of_nil. intros [H|[H|[H|[H|[]]]]]; discriminate.
Qed.

Lemma startRecording_started (h : Host) (w : World) :
  mode (app (after (startRecording h) w)) = RECORDING ->
  exists recorder,
    mediaRecorderRef (app (after (startRecording h) w)) = Some recorder
    /\ state recorder = recording
    /\ mimeType recorder = choose_mimeType h (settings (app w))
    /\ videoBitsPerSecond recorder = videoBitrate (settings (app w)).
Proof.
  fields w. ask.
  destruct (getDisplayMedia h _) as [with_audio|]; [|act; discriminate].
  destruct (recorder_accepts h _); act; [|discriminate].
  intros _. eexists. repeat split.
Qed.

(** C1, on the input where it fails: the user has picked WebM, the
    browser hands over a stream and then refuses to make a recorder for
    "video/webm;codecs=vp9". [startRecording] catches the error and puts
    the application back in idle, with the stream still in the ref, its
    video track live, and no track stopped. *)
Theorem startRecording_error_keeps_track_live :
  let w := after (startRecording Sample.mp4_only) Sample.webm_chosen in
  fst (startRecording Sample.mp4_only Sample.webm_chosen) = Returned tt
  /\ mode (app w) = IDLE
  /\ streamRef (app w) = Some {| videoTracks := [0%nat]; audioTracks := [] |}
  /\ held_tracks w = [0%nat]
  /\ 0%nat ∈ live (browser w)
  /\ ~ released w
  /\ log w
     = [call_getDisplayMedia
          {| video_frameRate := Some 30%Z; video_displaySurface := None;
             audio := None |};
        call_new_MediaRecorder "video/webm;codecs=vp9" 5000000;
        call_console_error "Error starting capture:";
        call_setMode IDLE].
Proof.
  assert (Hlive : 0%nat ∈ live (browser (after (startRecording Sample.mp4_only)
                                            Sample.webm_chosen))).
  { apply (startRecording_refused Sample.mp4_only Sample.webm_chosen false);
      reflexivity. }
  intros w. subst w.
  split; [reflexivity|]. split; [reflexivity|]. split; [reflexivity|].
  split; [reflexivity|]. split; [exact Hlive|]. split; [|reflexivity].
  intros [Htracks _]. apply (Htracks 0%nat); [|exact Hlive].
  change (0%nat ∈ [0%nat]). apply list_elem_of_here.
Qed.

(** *** The encoding *)

Lemma first_supported_spec (h : Host) :
  match Encoding.first_supported h with
  | Some t =>
      exists earlier later,
        mp4Types = earlier ++ t :: later
        /\ isTypeSupported h t = true
        /\ Forall (fun u => isTypeSupported h u = false) earlier
  | None => Forall (fun u => isTypeSupported h u = false) mp4Types
  end.
Proof.
  unfold Encoding.first_supported.
  induction mp4Types as [|c cs IH]; cbn [find]; [constructor|].
  destruct (isTypeSupported h c) eqn:Hc.
  - exists [], cs. repeat split; [assumption|constructor].
  - destruct (find (isTypeSupported h) cs) as [t|].
    + destruct IH as (earlier & later & -> & Ht & Hearlier).
      exists (c :: earlier), later. repeat split; [assumption|].
      constructor; assumption.
    + constructor; assumption.
Qed.

Lemma choose_mimeType_mp4 (h : Host) (s : AppSettings) :
  saveFormat s = mp4 -> choose_mimeType h s = Encoding.probed h.
Proof.
  intros Hfmt. unfold choose_mimeType, Encoding.probed, Encoding.first_supported.
  rewrite Hfmt. unfold mp4Types. cbn [find].
  repeat (destruct (isTypeSupported h _); [reflexivity|]). reflexivity.
Qed.

Lemma choose_mimeType_webm (h : Host) (s : AppSettings) :
  saveFormat s = webm -> choose_mimeType h s = "video/webm;codecs=vp9".
Proof. intros Hfmt. unfold choose_mimeType. rewrite Hfmt. reflexivity. Qed.

(** With the save format webm, what the browser reports as supported is
    not used. *)
Lemma startRecording_webm_ignores_support
      (h : Host) (supported : string -> bool) (w : World) :
  saveFormat (settings (app w)) = webm ->
  startRecording
    {| getDisplayMedia := getDisplayMedia h;
       isTypeSupported := supported;
       recorder_accepts := recorder_accepts h;
       video_plays := video_plays h;
       context_2d := context_2d h;
       toDataURL := toDataURL h |} w
  = startRecording h w.
Proof.
  intros Hfmt. fields w. ask. cbn [getDisplayMedia recorder_accepts].
  rewrite !(choose_mimeType_webm _ st Hfmt). reflexivity.
Qed.

(** C4, as the code has it: a recording that starts is made with the
    encoding found by probing only when the save format is mp4: then it is
    the first candidate of the list, in order, that the browser reports as
    supported, or "video/webm;codecs=vp9" when it reports none; when the
    save format is webm it is "video/webm;codecs=vp9" whatever the browser
    reports as supported: what it reports plays no part in anything
    [startRecording] does. *)
Theorem startRecording_encoding (h : Host) (w : World) :
  mode (app (after (startRecording h) w)) = RECORDING ->
  (saveFormat (settings (app w)) = mp4 ->
   Encoding.recorded_as (after (startRecording h) w) = Some (Encoding.probed h)
   /\ (forall t earlier later,
         mp4Types = earlier ++ t :: later ->
         isTypeSupported h t = true ->
         Forall (fun u => isTypeSupported h u = false) earlier ->
         Encoding.probed h = t)
   /\ (Forall (fun u => isTypeSupported h u = false) mp4Types ->
       Encoding.probed h = "video/webm;codecs=vp9"))
  /\ (saveFormat (settings (app w)) = webm ->
      Encoding.recorded_as (after (startRecording h) w)
      = Some "video/webm;codecs=vp9"
      /\ forall supported : string -> bool,
           startRecording
             {| getDisplayMedia := getDisplayMedia h;
                isTypeSupported := supported;
                recorder_accepts := recorder_accepts h;
                video_plays := video_plays h;
                context_2d := context_2d h;
                toDataURL := toDataURL h |} w
           = startRecording h w).
Proof.
  intros Hmode.
  destruct (startRecording_started h w Hmode) as (recorder & Href & _ & Hmime & _).
  unfold Encoding.recorded_as. rewrite Href. cbn [fmap option_fmap option_map].
  rewrite Hmime. split.
  - intros Hfmt. split; [now rewrite choose_mimeType_mp4|]. split.
    + intros t earlier later Hsplit Ht Hearlier.
      unfold Encoding.probed, Encoding.first_supported. rewrite Hsplit.
      clear Hsplit. induction Hearlier as [|u us Hu _ IH]; cbn [find List.app].
      * rewrite Ht. reflexivity.
      * rewrite Hu. exact IH.
    + intros Hnone. unfold Encoding.probed, Encoding.first_supported.
      induction Hnone as [|u us Hu _ IH]; cbn [find]; [reflexivity|].
      rewrite Hu. exact IH.
  - intros Hfmt. split; [now rewrite choose_mimeType_webm|].
    intros supported. now apply startRecording_webm_ignores_support.
Qed.

(** *** Settings *)

(** C7: [updateSettings key value] leaves a settings record whose field
    [key] is [value] and whose other fields are those of the record
    before; nothing else in the component changes. *)
Theorem updateSettings_merges (key : SettingsKey) (value : field key) (w : World) :
  get key (settings (app (after (updateSettings key value) w))) = value
  /\ (forall other, other <> key ->
        get other (settings (app (after (updateSettings key value) w)))
        = get other (settings (app w)))
  /\ settings (app (after (updateSettings key value) w))
     = spread (settings (app w)) key value
  /\ mode (app (after (updateSettings key value) w)) = mode (app w)
  /\ browser (after (updateSettings key value) w) = browser w.
Proof.
  fields w. act. split; [|split; [|repeat split]].
  - destruct key; reflexivity.
  - intros other Hne. destruct key, other; try reflexivity; congruence.
Qed.

(** *** Screenshot *)

(** C9: when the capture request of [takeScreenshot] is rejected, the
    handler returns having changed nothing in the component or the browser:
    the mode and [screenshotSrc] are as they were, and all it has done is
    ask for the capture and log the diagnostic. *)
Theorem takeScreenshot_failure_changes_nothing (h : Host) (w : World) :
  getDisplayMedia h Encoding.screenshot_options = None ->
  fst (takeScreenshot h w) = Returned tt
  /\ app (after (takeScreenshot h) w) = app w
  /\ mode (app (after (takeScreenshot h) w)) = mode (app w)
  /\ screenshotSrc (app (after (takeScreenshot h) w)) = screenshotSrc (app w)
  /\ browser (after (takeScreenshot h) w) = browser w
  /\ log (after (takeScreenshot h) w)
     = log w ++ [call_getDisplayMedia Encoding.screenshot_options;
                 call_console_error "Screenshot failed:"].
Proof.
  intros Hno. unfold Encoding.screenshot_options in *. fields w.
  ask. rewrite Hno. act. rewrite <- app_assoc. repeat split.
Qed.

End AppFacts.

(** ** Examples *)

Section Examples.

Import Sample.

Local Abbreviation draw := (Editor.draw atan2 cos sin).
Local Abbreviation draw_calls := (Editor.draw_calls atan2 cos sin).
Local Abbreviation gesture := (Editor.gesture atan2 cos sin).
Local Abbreviation gestures := (Editor.gestures atan2 cos sin).

(** *** The library functions and the handlers on small inputs *)

Example split_chord : Js.split "+" "ctrl+shift+r" = ["ctrl"; "shift"; "r"].
Proof. reflexivity. Qed.

Example split_trailing_separators : Js.split "+" "a++" = ["a"; ""; ""].
Proof. reflexivity. Qed.

Example split_empty_string : Js.split "+" "" = [""].
Proof. reflexivity. Qed.

Example toLowerCase_chord : Js.toLowerCase "Ctrl+Shift+R" = "ctrl+shift+r".
Proof. reflexivity. Qed.

Example slice_last_of_twelve : Js.slice_last 10 (seq 0 12) = seq 2 10.
Proof. reflexivity. Qed.

Example slice_last_of_three : Js.slice_last 10 [1; 2; 3]%nat = [1; 2; 3]%nat.
Proof. reflexivity. Qed.

(** Outside the chords: a modifier written twice never fires, and a
    description with modifiers only fires on any key. *)
Example modifier_written_twice :
  Chord.well_formed "ctrl+ctrl+r" = false
  /\ Hotkeys.handleKeyDown "ctrl+ctrl+r"
       {| Hotkeys.ctrlKey := true; Hotkeys.shiftKey := false;
          Hotkeys.altKey := false; Hotkeys.metaKey := false;
          Hotkeys.key := "r" |} = [].
Proof. split; reflexivity. Qed.

Example modifiers_only :
  Chord.well_formed "ctrl+shift" = false
  /\ Chord.fires
       (Hotkeys.handleKeyDown "ctrl+shift"
          {| Hotkeys.ctrlKey := true; Hotkeys.shiftKey := true;
             Hotkeys.altKey := false; Hotkeys.metaKey := false;
             Hotkeys.key := "q" |}).
Proof. split; reflexivity. Qed.

(** A recording started and stopped: what is called, in order. *)
Example start_then_stop :
  App.log (App.after App.stopRecording
             (App.after (App.startRecording supports_all) App.initial))
  = [App.call_getDisplayMedia
       {| App.video_frameRate := Some 30%Z; App.video_displaySurface := None;
          App.audio := None |};
     App.call_new_MediaRecorder "video/mp4;codecs=avc1" 5000000;
     App.call_recorder_start 1000;
     App.call_setMode RECORDING;
     App.call_setRecordingTime 0;
     App.call_setInterval 1 1000;
     App.call_recorder_stop;
     App.call_track_stop 0;
     App.call_clearInterval 1;
     App.call_setMode IDLE].
Proof. reflexivity. Qed.

(** A screenshot taken: the frame is handed over and the track stopped. *)
Example screenshot_taken :
  let w := App.after (App.takeScreenshot supports_all) App.initial in
  App.mode (App.app w) = SCREENSHOT_PREVIEW
  /\ App.screenshotSrc (App.app w) = Some "data:image/png;base64,iVBORw0KGgo="
  /\ App.log w
     = [App.call_getDisplayMedia Encoding.screenshot_options;
        App.call_setScreenshotSrc (Some "data:image/png;base64,iVBORw0KGgo=");
        App.call_setMode SCREENSHOT_PREVIEW;
        App.call_track_stop 0].
Proof. repeat split. Qed.

(** *** The theorems at concrete inputs *)

(** Fifteen rectangles on a loaded image, then undo. *)
Lemma history_capped_at_eleven_witness :
  let strokes := repeat (press, [move1; move2]) 15 in
  let s := gestures strokes loaded in
  strokes <> []
  /\ length strokes = 15
  /\ length (Editor.history (gestures (take 10 strokes) loaded)) = 11
  /\ length (Editor.history s) = 11
  /\ length (Editor.history (Nat.iter 10 Editor.undo s)) = 1
  /\ Nat.iter 12 Editor.undo s = Nat.iter 10 Editor.undo s
  /\ Editor.history (Editor.saveState (gestures (take 10 strokes) loaded))
     = tail (Editor.history (gestures (take 10 strokes) loaded))
       ++ [Editor.getImageData (Editor.canvas (gestures (take 10 strokes) loaded))].
Proof.
  intros strokes s.
  assert (Hne : strokes <> []) by discriminate.
  assert (Hlen : length strokes = 15) by reflexivity.
  destruct (history_capped_at_eleven atan2 cos sin) as (_ & Hcap & Hfull & Hfifteen).
  destruct (Hfifteen loaded strokes Hlen) as (H11 & Hundo & Hstable).
  assert (H10 : length (Editor.history (gestures (take 10 strokes) loaded)) = 11)
    by reflexivity.
  split; [exact Hne|]. split; [exact Hlen|]. split; [exact H10|].
  split; [exact H11|]. split; [exact (Hundo 10)|].
  split; [apply Hstable; lia|exact (Hfull _ H10)].
Defined.


(** A rectangle from (10, 10) over (30, 30) to (50, 40) on a loaded image:
    the second move puts the loaded image back first. The same before the
    image is loaded: nothing is put back. *)
Lemma gesture_commits_once_witness :
  let snap := Editor.Drawn Editor.Transparent (Editor.src image)
                0 0 0x1.138e38e38e38ep+10 620 in
  let mid := fold_left draw (take 1 [move1; move2])
               (Editor.startDrawing press loaded) in
  length (Editor.history loaded) <= 10
  /\ Editor.history loaded = [] ++ [snap]
  /\ Editor.selectedTool loaded = RECTANGLE
  /\ [move1; move2] !! 1%nat = Some move2
  /\ Editor.history unloaded = []
  /\ Editor.history (gesture press [move1; move2] loaded)
     = Editor.history loaded
       ++ [Editor.getImageData
             (Editor.canvas (fold_left draw [move1; move2]
                               (Editor.startDrawing press loaded)))]
  /\ Editor.restores_first (draw_calls mid move2) = true
  /\ Editor.getImageData (Editor.canvas (draw mid move2))
     = Editor.Stroked snap [Editor.RectTo 10 10 40 30] "#ef4444" 4 "round" "round"
  /\ Forall (fun c => Editor.is_restore c = false)
       (draw_calls
          (fold_left draw (take 1 [move1; move2])
             (Editor.startDrawing press unloaded)) move2).
Proof.
  intros snap mid.
  assert (Hlen : length (Editor.history loaded) <= 10) by (vm_compute; lia).
  assert (Hh : Editor.history loaded = [] ++ [snap]) by reflexivity.
  assert (Htool : Editor.selectedTool loaded = RECTANGLE) by reflexivity.
  assert (Hk : [move1; move2] !! 1%nat = Some move2) by reflexivity.
  assert (Hempty : Editor.history unloaded = []) by reflexivity.
  destruct (gesture_commits_once atan2 cos sin press [move1; move2] loaded)
    as (_ & Hone & _ & _ & Hrestore & _).
  destruct (gesture_commits_once atan2 cos sin press [move1; move2] unloaded)
    as (_ & _ & _ & _ & _ & Hnone).
  destruct (Hrestore [] snap 1%nat move2 Hh (or_introl Htool) Hk)
    as (redraw & _ & Hfirst & _ & _ & Hrect & _).
  split; [exact Hlen|]. split; [exact Hh|]. split; [exact Htool|].
  split; [exact Hk|]. split; [exact Hempty|]. split; [exact (Hone Hlen)|].
  split; [exact Hfirst|]. split; [exact (Hrect Htool)|].
  exact (Hnone 1%nat move2 Hempty Hk).
Defined.

(** C6 as stated fails before the image is loaded: the history is empty,
    the second move of a rectangle gesture puts nothing back, and the
    canvas keeps the first preview under the second. *)
Lemma move_without_snapshot_restores_nothing :
  let mid := fold_left draw [move1] (Editor.startDrawing press unloaded) in
  unloaded = Editor.setSelectedTool RECTANGLE Editor.initial
  /\ Editor.history mid = []
  /\ draw_calls mid move2
     = [Editor.beginPath; Editor.assign_strokeStyle "#ef4444";
        Editor.assign_lineWidth 4; Editor.rect 10 10 40 30; Editor.stroke]
  /\ Editor.restores_first (draw_calls mid move2) = false
  /\ ~ (exists snap redraw,
          draw_calls mid move2 = Editor.putImageData snap 0 0 :: redraw)
  /\ Editor.getImageData (Editor.canvas (draw mid move2))
     = Editor.Stroked
         (Editor.Stroked Editor.Transparent [Editor.RectTo 10 10 20 20]
            "#ef4444" 4 "round" "round")
         [Editor.RectTo 10 10 40 30] "#ef4444" 4 "round" "round".
Proof.
  intros mid.
  split; [reflexivity|]. split; [reflexivity|]. split; [reflexivity|].
  split; [reflexivity|]. split; [|reflexivity].
  intros (snap & redraw & Hcalls). discriminate Hcalls.
Qed.

(** A recording started with the default settings (mp4) on a browser that
    supports every encoding. *)
Lemma startRecording_encoding_witness :
  App.mode (App.app (App.after (App.startRecording supports_all) App.initial))
  = RECORDING
  /\ saveFormat (App.settings (App.app App.initial)) = mp4
  /\ Encoding.recorded_as (App.after (App.startRecording supports_all) App.initial)
     = Some (Encoding.probed supports_all)
  /\ Encoding.probed supports_all = "video/mp4;codecs=avc1"
  /\ saveFormat (App.settings (App.app webm_chosen)) = webm
  /\ Encoding.recorded_as (App.after (App.startRecording supports_all) webm_chosen)
     = Some "video/webm;codecs=vp9".
Proof.
  assert (Hmode : App.mode (App.app (App.after (App.startRecording supports_all)
                                       App.initial)) = RECORDING) by reflexivity.
  assert (Hmode' : App.mode (App.app (App.after (App.startRecording supports_all)
                                        webm_chosen)) = RECORDING) by reflexivity.
  assert (Hmp4 : saveFormat (App.settings (App.app App.initial)) = mp4) by reflexivity.
  assert (Hwebm : saveFormat (App.settings (App.app webm_chosen)) = webm) by reflexivity.
  destruct (startRecording_encoding supports_all App.initial Hmode) as [Hprobe _].
  destruct (startRecording_encoding supports_all webm_chosen Hmode') as [_ Hdefault].
  destruct (Hprobe Hmp4) as (Hrec & Hfirst & _).
  split; [exact Hmode|]. split; [exact Hmp4|]. split; [exact Hrec|].
  split; [|split; [exact Hwebm|exact (proj1 (Hdefault Hwebm))]].
  apply (Hfirst "video/mp4;codecs=avc1" [] ["video/mp4"; "video/webm;codecs=h264"]);
    [reflexivity|reflexivity|constructor].
Defined.

(** C4 as stated fails when the save format is webm: on a browser that
    supports every candidate, probing gives "video/mp4;codecs=avc1", and
    the recording that starts is made with "video/webm;codecs=vp9". *)
Lemma webm_recording_is_not_probed :
  let w := App.after (App.startRecording supports_all) webm_chosen in
  saveFormat (App.settings (App.app webm_chosen)) = webm
  /\ App.mode (App.app w) = RECORDING
  /\ Encoding.first_supported supports_all = Some "video/mp4;codecs=avc1"
  /\ Encoding.probed supports_all = "video/mp4;codecs=avc1"
  /\ Encoding.recorded_as w = Some "video/webm;codecs=vp9"
  /\ Encoding.recorded_as w <> Some (Encoding.probed supports_all)
  /\ ~ (forall h w0,
          App.mode (App.app (App.after (App.startRecording h) w0)) = RECORDING ->
          Encoding.recorded_as (App.after (App.startRecording h) w0)
          = Some (Encoding.probed h)).
Proof.
  intros w.
  assert (Hrec : Encoding.recorded_as w = Some "video/webm;codecs=vp9")
    by (vm_compute; reflexivity).
  assert (Hprobe : Encoding.probed supports_all = "video/mp4;codecs=avc1")
    by (vm_compute; reflexivity).
  split; [reflexivity|]. split; [reflexivity|]. split; [reflexivity|].
  split; [exact Hprobe|]. split; [exact Hrec|]. split.
  - rewrite Hrec, Hprobe. intros [=].
  - intros Hall. specialize (Hall supports_all webm_chosen eq_refl).
    fold w in Hall. rewrite Hrec, Hprobe in Hall. now inversion Hall.
Qed.

(** Switching the save format to webm in the default settings. *)
Lemma updateSettings_merges_witness :
  let w := App.after (App.updateSettings App.key_saveFormat webm) App.initial in
  App.key_frameRate <> App.key_saveFormat
  /\ App.get App.key_saveFormat (App.settings (App.app w)) = webm
  /\ App.get App.key_frameRate (App.settings (App.app w))
     = App.get App.key_frameRate (App.settings (App.app App.initial)).
Proof.
  intros w.
  assert (Hne : App.key_frameRate <> App.key_saveFormat) by discriminate.
  destruct (updateSettings_merges App.key_saveFormat webm App.initial)
    as (Hset & Hothers & _).
  split; [exact Hne|]. split; [exact Hset|exact (Hothers _ Hne)].
Defined.

(** A screenshot asked for from the settings panel's mode, with the
    picker dismissed. *)
Lemma takeScreenshot_failure_changes_nothing_witness :
  let w0 := App.after (App.setMode SETTINGS) App.initial in
  let w := App.after (App.takeScreenshot picker_cancelled) w0 in
  App.getDisplayMedia picker_cancelled Encoding.screenshot_options = None
  /\ App.app w = App.app w0
  /\ App.mode (App.app w) = SETTINGS
  /\ App.screenshotSrc (App.app w) = None
  /\ App.browser w = App.browser w0.
Proof.
  intros w0 w.
  assert (Hno : App.getDisplayMedia picker_cancelled Encoding.screenshot_options = None)
    by reflexivity.
  destruct (takeScreenshot_failure_changes_nothing picker_cancelled w0 Hno)
    as (_ & Happ & Hmode & Hsrc & Hbrowser & _).
  split; [exact Hno|]. split; [exact Happ|]. split; [exact Hmode|].
  split; [exact Hsrc|exact Hbrowser].
Defined.

End Examples.

(** ** Further properties of the hotkey listener *)

Section HotkeyMore.

Import Hotkeys Chord.

Lemma bool_decide_elem_of_cons (a m : string) (names : list string) :
  bool_decide (a ∈ m :: names)
  = bool_decide (a = m) || bool_decide (a ∈ names).
Proof.
  apply eq_true_iff_eq.
  rewrite orb_true_iff, !bool_decide_eq_true, elem_of_cons. tauto.
Qed.

Lemma named_count_cons (m : string) (names : list string) :
  m ∈ modifiers ->
  named_count (m :: names)
  = (named_count names + Nat.b2n (bool_decide (m ∉ names)))%nat.
Proof.
  intros Hm. unfold named_count. rewrite !bool_decide_elem_of_cons, bool_decide_not.
  unfold modifiers in Hm.
  repeat (apply elem_of_cons in Hm as [->|Hm]); [| | |inversion Hm];
    destruct (bool_decide ("ctrl" ∈ names)), (bool_decide ("shift" ∈ names)),
      (bool_decide ("alt" ∈ names)); reflexivity.
Qed.

Lemma named_count_bound (names : list string) :
  (forall m, m ∈ names -> m ∈ modifiers) ->
  named_count names <= length names
  /\ (named_count names = length names -> NoDup names).
Proof.
  induction names as [|m names IH]; intros Hsub.
  - split; [vm_compute; lia|intros _; constructor].
  - assert (Hm : m ∈ modifiers) by (apply Hsub; left).
    destruct IH as [Hle Hnd]; [intros m' Hm'; apply Hsub; now right|].
    rewrite (named_count_cons m names Hm). cbn [length].
    case_bool_decide as Hin; cbn [Nat.b2n].
    + split; [lia|]. intros Heq. constructor; [exact Hin|]. apply Hnd. lia.
    + split; [lia|]. intros Heq. lia.
Qed.

(** The listener's test, with the pieces counted. *)
Lemma handleKeyDown_counts (keyCombo : string) (ev : KeyboardEvent) :
  handleKeyDown keyCombo ev
  = if modifiers_held keyCombo ev
       && match head (key_pieces keyCombo) with
          | Some K => String.eqb K ""
                      || String.eqb (Js.toLowerCase (key ev)) (Js.toLowerCase K)
          | None => true
          end
       && (named_count (map Js.toLowerCase (modifier_pieces keyCombo))
           + match head (key_pieces keyCombo) with
             | Some K => if String.eqb K "" then 0 else 1
             | None => 0
             end
           =? length (pieces keyCombo))%nat
    then [PreventDefault; Callback] else [].
Proof.
  unfold handleKeyDown. rewrite !includes_keys.
  rewrite split_toLowerCase, find_keys, length_map.
  fold (pieces keyCombo). fold (key_pieces keyCombo).
  unfold named_count, modifiers_held.
  rewrite <- !names_bool_decide by (unfold modifiers; set_solver).
  destruct (head (key_pieces keyCombo)) as [K|];
    cbn [fmap option_fmap option_map Js.truthy Js.strict_eq].
  - rewrite toLowerCase_empty.
    destruct (String.eqb K ""),
      (String.eqb (Js.toLowerCase (key ev)) (Js.toLowerCase K)),
      (names keyCombo "ctrl"), (names keyCombo "shift"), (names keyCombo "alt"),
      (ctrlKey ev), (shiftKey ev), (altKey ev);
      cbn [negb andb orb implb Nat.b2n Js.every forallb List.app length Nat.add];
      try reflexivity;
      destruct (length (pieces keyCombo)) as [|[|[|[|[|n]]]]]; reflexivity.
  - destruct (names keyCombo "ctrl"), (names keyCombo "shift"), (names keyCombo "alt"),
      (ctrlKey ev), (shiftKey ev), (altKey ev);
      cbn [negb andb orb implb Nat.b2n Js.every forallb List.app length Nat.add];
      try reflexivity;
      destruct (length (pieces keyCombo)) as [|[|[|[|[|n]]]]]; reflexivity.
Qed.

(** The listener does both or nothing. *)
Lemma classic_fires (keyCombo : string) (ev : KeyboardEvent) :
  fires (handleKeyDown keyCombo ev) \/ ~ fires (handleKeyDown keyCombo ev).
Proof.
  rewrite handleKeyDown_counts. unfold fires.
  destruct (_ && _); [now left|right; discriminate].
Qed.

(** When the listener fires, for any description and any event. *)
Lemma fires_when (keyCombo : string) (ev : KeyboardEvent) :
  (fires (handleKeyDown keyCombo ev)
   <-> NoDup (map Js.toLowerCase (modifier_pieces keyCombo))
       /\ modifiers_held keyCombo ev = true
       /\ (key_pieces keyCombo = []
           \/ exists K, key_pieces keyCombo = [K] /\ K <> ""
                        /\ key_matches ev K))
  /\ (~ fires (handleKeyDown keyCombo ev) -> handleKeyDown keyCombo ev = []).
Proof.
  rewrite handleKeyDown_counts. unfold fires, key_matches.
  pose proof (pieces_partition keyCombo) as Hpart.
  destruct (named_count_bound _ (modifier_pieces_spelled keyCombo)) as [Hle Hnd].
  rewrite length_map in Hle, Hnd.
  pose proof (distinct_modifiers_length (map Js.toLowerCase (modifier_pieces keyCombo)))
    as Hdistinct.
  rewrite length_map in Hdistinct. fold (named_count (map Js.toLowerCase (modifier_pieces keyCombo)))
    in Hdistinct.
  split.
  2:{ destruct (_ && _); [intros Hn; exfalso; now apply Hn|reflexivity]. }
  destruct (modifiers_held keyCombo ev); cbn [andb];
    [|split; [discriminate|intros (_ & ? & _); discriminate]].
  destruct (key_pieces keyCombo) as [|K [|K' more]] eqn:HK; cbn [head length] in *.
  - destruct (Nat.eqb_spec
                (named_count (map Js.toLowerCase (modifier_pieces keyCombo)) + 0)
                (length (pieces keyCombo))) as [Heq|Hne].
    + split; [|reflexivity]. intros _. split; [apply Hnd; lia|]. split; [reflexivity|now left].
    + split; [discriminate|]. intros (Hno & _ & _). exfalso. apply Hne.
      pose proof (Hdistinct Hno (modifier_pieces_spelled keyCombo)). lia.
  - destruct (String.eqb_spec K "") as [->|HKne]; cbn [orb].
    + destruct (Nat.eqb_spec
                  (named_count (map Js.toLowerCase (modifier_pieces keyCombo)) + 0)
                  (length (pieces keyCombo))) as [Heq|Hne]; [lia|].
      split; [discriminate|]. intros (_ & _ & [Hnil|(K & HK' & HKne & _)]);
        [discriminate|]. injection HK' as <-. congruence.
    + destruct (String.eqb_spec (Js.toLowerCase (key ev)) (Js.toLowerCase K))
        as [Hkey|Hkey]; cbn [andb].
      * destruct (Nat.eqb_spec
                    (named_count (map Js.toLowerCase (modifier_pieces keyCombo)) + 1)
                    (length (pieces keyCombo))) as [Heq|Hne].
        -- split; [|reflexivity]. intros _. split; [apply Hnd; lia|].
           split; [reflexivity|]. right. exists K. repeat split; assumption.
        -- split; [discriminate|]. intros (Hno & _ & _). exfalso. apply Hne.
           pose proof (Hdistinct Hno (modifier_pieces_spelled keyCombo)). lia.
      * split; [discriminate|].
        intros (_ & _ & [Hnil|(K0 & HK' & _ & Hm)]); [discriminate|].
        injection HK' as <-. contradiction.
  - assert (Hf : (named_count (map Js.toLowerCase (modifier_pieces keyCombo))
                  + (if String.eqb K "" then 0 else 1)
                  =? length (pieces keyCombo))%nat = false)
      by (apply Nat.eqb_neq; destruct (String.eqb K ""); lia).
    rewrite Hf, andb_false_r. split; [discriminate|].
    intros (_ & _ & [Hnil|(K0 & HK' & _)]); discriminate.
Qed.


(** X1. For a description and an event key written in ASCII, the listener
    suppresses the default action and invokes the callback exactly when no
    modifier name is written twice, every named modifier is held, and the
    description has either no key piece at all (then any key will do) or
    exactly one, not empty, that the event's key matches up to case. So a
    description with two keys, with a modifier twice, or with an empty
    piece (a trailing or doubled "+") never fires. *)
Theorem handleKeyDown_fires_iff (keyCombo : string) (ev : KeyboardEvent) :
  Js.is_ascii keyCombo = true ->
  Js.is_ascii (key ev) = true ->
  (fires (handleKeyDown keyCombo ev)
   <-> NoDup (map Js.toLowerCase (modifier_pieces keyCombo))
       /\ modifiers_held keyCombo ev = true
       /\ (key_pieces keyCombo = []
           \/ exists K, key_pieces keyCombo = [K] /\ K <> ""
                        /\ key_matches ev K))
  /\ (~ fires (handleKeyDown keyCombo ev) -> handleKeyDown keyCombo ev = []).
Proof. intros _ _. exact (fires_when keyCombo ev). Qed.

(** *** The order and the case of the pieces *)

Lemma filter_Permutation_bool {A} (p : A -> bool) (xs ys : list A) :
  xs ≡ₚ ys -> List.filter p xs ≡ₚ List.filter p ys.
Proof.
  induction 1 as [|a xs ys _ IH|a b xs|xs ys zs _ IH1 _ IH2]; cbn [List.filter].
  - reflexivity.
  - destruct (p a); [now constructor|exact IH].
  - destruct (p a), (p b); try reflexivity. apply perm_swap.
  - now transitivity (List.filter p ys).
Qed.

Lemma filter_toLowerCase (p : string -> bool) (ps : list string) :
  map Js.toLowerCase (List.filter (fun piece => p (Js.toLowerCase piece)) ps)
  = List.filter p (map Js.toLowerCase ps).
Proof.
  induction ps as [|piece ps IH]; [reflexivity|].
  cbn [List.filter map]. destruct (p (Js.toLowerCase piece)); cbn [map]; now rewrite IH.
Qed.

Lemma toLowerCase_nonempty (K : string) : K <> "" <-> Js.toLowerCase K <> "".
Proof. destruct K; cbn; split; congruence. Qed.

(** The test of [fires_when], read off the lower-cased pieces alone. *)
Lemma fires_when_lowered (keyCombo : string) (ev : KeyboardEvent) :
  let keys := map Js.toLowerCase (pieces keyCombo) in
  fires (handleKeyDown keyCombo ev)
  <-> NoDup (List.filter (Js.includes modifiers) keys)
      /\ (forall m, m ∈ modifiers -> m ∈ keys ->
            (if String.eqb m "ctrl" then ctrlKey ev
             else if String.eqb m "shift" then shiftKey ev
             else altKey ev) = true)
      /\ (List.filter (fun k => negb (Js.includes modifiers k)) keys = []
          \/ exists k, List.filter (fun k => negb (Js.includes modifiers k)) keys = [k]
                       /\ k <> "" /\ Js.toLowerCase (key ev) = k).
Proof.
  intros keys. subst keys.
  rewrite (proj1 (fires_when keyCombo ev)).
  unfold modifier_pieces, key_pieces, is_modifier, key_matches.
  rewrite <- (filter_toLowerCase (Js.includes modifiers)).
  rewrite <- (filter_toLowerCase (fun k => negb (Js.includes modifiers k))).
  apply and_iff_compat_l. apply ZifyClasses.and_morph.
  - unfold modifiers_held. rewrite !andb_true_iff. split.
    + intros [[Hc Hs] Ha] m Hm Hin. apply names_elem_of in Hin.
      unfold modifiers in Hm.
      repeat (apply elem_of_cons in Hm as [->|Hm]); [| | |inversion Hm];
        rewrite Hin in *; cbn in *; assumption.
    + intros Hall. repeat split.
      * destruct (names keyCombo "ctrl") eqn:Hn; [|reflexivity].
        apply (Hall "ctrl"); [unfold modifiers; set_solver|now apply names_elem_of].
      * destruct (names keyCombo "shift") eqn:Hn; [|reflexivity].
        apply (Hall "shift"); [unfold modifiers; set_solver|now apply names_elem_of].
      * destruct (names keyCombo "alt") eqn:Hn; [|reflexivity].
        apply (Hall "alt"); [unfold modifiers; set_solver|now apply names_elem_of].
  - set (ks := List.filter (fun piece => negb (Js.includes modifiers (Js.toLowerCase piece)))
                 (pieces keyCombo)).
    split.
    + intros [->|(K & -> & HK & Hm)]; [now left|right].
      exists (Js.toLowerCase K). split; [reflexivity|].
      split; [exact (proj1 (toLowerCase_nonempty K) HK)|exact Hm].
    + intros [Hnil|(k & Hk & Hne & Hm)].
      * left. now destruct ks.
      * right. destruct ks as [|K [|K' more]]; try discriminate Hk.
        injection Hk as <-. exists K. split; [reflexivity|].
        split; [exact (proj2 (toLowerCase_nonempty K) Hne)|exact Hm].
Qed.

(** X2. The listener reads a description only through its lower-cased
    pieces, whatever their order: two descriptions whose lower-cased pieces
    are the same up to order ("Shift+Ctrl+R" and "ctrl+shift+r") do the same
    on every event. *)
Theorem handleKeyDown_order_and_case (first second : string) (ev : KeyboardEvent) :
  map Js.toLowerCase (pieces first) ≡ₚ map Js.toLowerCase (pieces second) ->
  handleKeyDown first ev = handleKeyDown second ev.
Proof.
  intros Hperm.
  assert (Hiff : fires (handleKeyDown first ev) <-> fires (handleKeyDown second ev)).
  { rewrite !fires_when_lowered. cbv zeta.
    pose proof (filter_Permutation_bool (Js.includes modifiers) _ _ Hperm) as Hmods.
    pose proof (filter_Permutation_bool (fun k => negb (Js.includes modifiers k)) _ _ Hperm)
      as Hkeys.
    rewrite Hmods.
    apply and_iff_compat_l. apply ZifyClasses.and_morph.
    - split; intros Hall m Hm Hin; apply Hall; try assumption;
        [now rewrite Hperm|now rewrite <- Hperm].
    - split.
      + intros [Hnil|(k & Hk & Hrest)].
        * left. rewrite Hnil in Hkeys. now apply Permutation_nil_l in Hkeys.
        * right. exists k. split; [|exact Hrest]. rewrite Hk in Hkeys.
          now apply Permutation_singleton_l in Hkeys.
      + intros [Hnil|(k & Hk & Hrest)].
        * left. rewrite Hnil in Hkeys. now apply Permutation_nil_r in Hkeys.
        * right. exists k. split; [|exact Hrest]. rewrite Hk in Hkeys.
          now apply Permutation_singleton_r in Hkeys. }
  destruct (fires_when first ev) as [_ Hfirst], (fires_when second ev) as [_ Hsecond].
  destruct (classic_fires first ev) as [Hf|Hf].
  - rewrite Hf. symmetry. now apply Hiff.
  - rewrite (Hfirst Hf). symmetry. apply Hsecond. intros Hs. apply Hf. now apply Hiff.
Qed.

End HotkeyMore.

(** ** Further properties of the annotation editor *)

Section EditorMore.

Import Editor Consistency.

Variable Math_atan2 : float -> float -> float.
Variables Math_cos Math_sin : float -> float.

Local Abbreviation draw_calls := (Editor.draw_calls Math_atan2 Math_cos Math_sin).
Local Abbreviation draw := (Editor.draw Math_atan2 Math_cos Math_sin).
Local Abbreviation gesture := (Editor.gesture Math_atan2 Math_cos Math_sin).
Local Abbreviation step := (Editor.step Math_atan2 Math_cos Math_sin).
Local Abbreviation run := (Editor.run Math_atan2 Math_cos Math_sin).

(** *** Events outside a stroke *)

Lemma draw_idle (s : State) (e : Pointer) : isDrawing s = false -> draw s e = s.
Proof.
  intros Hidle. unfold Editor.draw, Editor.draw_calls. rewrite Hidle.
  destruct s; reflexivity.
Qed.

Lemma draw_without_start (s : State) (e : Pointer) :
  startPoint s = None -> draw s e = s.
Proof.
  intros Hnone. unfold Editor.draw, Editor.draw_calls. rewrite Hnone.
  destruct s as [? ? ? [] ? ? ? ?]; reflexivity.
Qed.

(** X3. Outside a stroke the pointer does nothing: a move without a press
    leaves the editor as it is, and so does a release; after a release a
    second one (the pointer leaving the canvas after the button went up)
    commits nothing more. *)
Theorem pointer_outside_stroke (s : State) (e : Pointer) :
  isDrawing s = false ->
  draw s e = s
  /\ endDrawing s = s
  /\ (forall s', endDrawing (endDrawing s') = endDrawing s')
  /\ (forall press moves,
        endDrawing (gesture press moves s) = gesture press moves s).
Proof.
  intros Hidle.
  assert (Hout : forall s0, isDrawing s0 = false -> endDrawing s0 = s0).
  { intros s0 Hd. unfold endDrawing. rewrite Hd. reflexivity. }
  assert (Hagain : forall s', endDrawing (endDrawing s') = endDrawing s').
  { intros s'. apply Hout. unfold endDrawing.
    destruct (isDrawing s') eqn:Hd; cbn [negb]; [reflexivity|exact Hd]. }
  split; [now apply draw_idle|]. split; [now apply Hout|].
  split; [exact Hagain|]. intros press moves. apply Hagain.
Qed.

(** *** The canvas and the last snapshot *)

Lemma shows_after_saveState (s : State) : shows_last_snapshot (saveState s).
Proof.
  right. rewrite saveState_history. apply last_snoc.
Qed.

Lemma step_keeps_showing (s : State) (ev : Event) :
  (isDrawing s = false -> shows_last_snapshot s) ->
  isDrawing (step s ev) = false -> shows_last_snapshot (step s ev).
Proof.
  intros Hinv. destruct ev; cbn [Editor.step].
  - intros _. unfold onload.
    match goal with |- context [let '(_, _) := ?p in _] => destruct p end.
    apply shows_after_saveState.
  - discriminate.
  - intros Hd. assert (Hidle : isDrawing s = false) by exact Hd.
    rewrite (draw_idle s e Hidle). now apply Hinv.
  - unfold endDrawing. destruct (isDrawing s) eqn:Hd; cbn [negb].
    + intros _. right. rewrite saveState_history. apply last_snoc.
    + intros _. now apply Hinv.
  - intros Hd.
    destruct (Nat.le_gt_cases (length (history s)) 1) as [Hle|Hgt].
    + rewrite (undo_short s Hle) in *. now apply Hinv.
    + destruct (two_last _ Hgt) as (older & below & top & Hh).
      rewrite (undo_pops s _ _ _ Hh). right.
      cbn [issue on_canvas setHistory history canvas]. rewrite last_snoc.
      reflexivity.
  - intros Hd. exact (Hinv Hd).
  - intros Hd. exact (Hinv Hd).
  - intros Hd. exact (Hinv Hd).
Qed.

Lemma run_keeps_showing (evs : list Event) (s : State) :
  (isDrawing s = false -> shows_last_snapshot s) ->
  isDrawing (run evs s) = false -> shows_last_snapshot (run evs s).
Proof.
  revert s. induction evs as [|ev evs IH]; intros s Hinv; [exact Hinv|].
  unfold Editor.run. cbn [fold_left]. apply IH. now apply step_keeps_showing.
Qed.

Lemma step_keeps_snapshot (s : State) (ev : Event) :
  history s <> [] -> history (step s ev) <> [].
Proof.
  intros Hne. destruct ev; cbn [Editor.step]; try exact Hne.
  - intros Hnil. apply (f_equal length) in Hnil. rewrite onload_length in Hnil.
    discriminate.
  - unfold endDrawing. destruct (isDrawing s); cbn [negb]; [|exact Hne].
    intros Hnil. apply (f_equal length) in Hnil. rewrite saveState_length in Hnil.
    discriminate.
  - intros Hnil. apply (f_equal length) in Hnil. rewrite undo_length in Hnil.
    destruct (history s); [congruence|]. cbn [length] in Hnil. lia.
Qed.

Lemma run_keeps_snapshot (evs : list Event) (s : State) :
  history s <> [] -> history (run evs s) <> [].
Proof.
  revert s. induction evs as [|ev evs IH]; intros s Hne; [exact Hne|].
  unfold Editor.run. cbn [fold_left]. apply IH. now apply step_keeps_snapshot.
Qed.

(** The editor once its image has loaded, whatever happened since. *)
Lemma after_load (img : HTMLImageElement) (container : Container) (evs : list Event) :
  let s := run (Loaded img container :: evs) initial in
  history s <> []
  /\ (isDrawing s = false -> last (history s) = Some (getImageData (canvas s))).
Proof.
  intros s.
  assert (Hs : s = run evs (onload img container initial)) by reflexivity.
  assert (Hne : history s <> []).
  { rewrite Hs. apply run_keeps_snapshot. intros Hnil.
    apply (f_equal length) in Hnil. rewrite onload_length in Hnil. discriminate. }
  split; [exact Hne|]. intros Hidle.
  assert (Hshows : shows_last_snapshot s).
  { rewrite Hs. apply run_keeps_showing; [|rewrite <- Hs; exact Hidle].
    intros Hd. apply (step_keeps_showing initial (Loaded img container)); [|exact Hd].
    intros _. now left. }
  destruct Hshows as [Hnil|Hlast]; [contradiction|exact Hlast].
Qed.

(** X4. Once the image has loaded, whatever is done in the editor, whenever
    no stroke is in progress the canvas shows the last snapshot of the
    history: what undo would pop is what is on the screen. (With one image
    loaded every snapshot has the size of the canvas, so that putting one
    back at the origin replaces the picture.) *)
Theorem canvas_shows_last_snapshot
        (img : HTMLImageElement) (container : Container) (evs : list Event) :
  same_image img container evs ->
  let s := run (Loaded img container :: evs) initial in
  isDrawing s = false ->
  last (history s) = Some (getImageData (canvas s)).
Proof.
  intros _ s Hidle. exact (proj2 (after_load img container evs) Hidle).
Qed.

(** *** The history once it has a snapshot *)

(** X5. Once the history holds a snapshot it holds one for good: no sequence
    of loads, strokes, undos and tool changes empties it, and undo never
    takes the last one away. *)
Theorem history_never_emptied (evs : list Event) (s : State) :
  history s <> [] ->
  history (run evs s) <> []
  /\ (forall n, history (Nat.iter n undo (run evs s)) <> []).
Proof.
  intros Hne.
  pose proof (run_keeps_snapshot evs s Hne) as Hrun.
  split; [exact Hrun|]. intros n Hnil. apply (f_equal length) in Hnil.
  rewrite undo_iter_length in Hnil; [cbn [length] in Hnil; lia|].
  destruct (history (run evs s)); [congruence|cbn [length]; lia].
Qed.

(** *** A stroke and its undo *)

Lemma undo_gesture (press : Pointer) (moves : list Pointer) (s : State)
      (earlier : list ImageData) (snap : ImageData) :
  Js.slice_last 10 (history s) = earlier ++ [snap] ->
  history (undo (gesture press moves s)) = earlier ++ [snap]
  /\ getImageData (canvas (undo (gesture press moves s))) = snap.
Proof.
  intros Hkeep.
  assert (Hh : history (gesture press moves s)
               = earlier ++ [snap; getImageData
                               (canvas (fold_left draw moves (startDrawing press s)))]).
  { rewrite gesture_history, Hkeep, <- app_assoc. reflexivity. }
  rewrite (undo_pops _ _ _ _ Hh). split; reflexivity.
Qed.

Lemma undo_after_gesture (press : Pointer) (moves : list Pointer) (s : State)
      (earlier : list ImageData) (snap : ImageData) :
  history s = earlier ++ [snap] ->
  getImageData (canvas (undo (gesture press moves s))) = snap
  /\ (length (history s) <= 10 ->
      history (undo (gesture press moves s)) = history s)
  /\ (length (history s) = 11 ->
      history (undo (gesture press moves s)) = tail (history s)).
Proof.
  intros Hh.
  assert (Hkeep : exists kept, Js.slice_last 10 (history s) = kept ++ [snap]).
  { unfold Js.slice_last. rewrite Hh, length_app. cbn [length].
    destruct (Nat.le_gt_cases (length earlier + 1 - 10) (length earlier)) as [Hle|Hgt];
      [|lia].
    exists (drop (length earlier + 1 - 10) earlier).
    rewrite drop_app_le by exact Hle. reflexivity. }
  destruct Hkeep as (kept & Hkeep).
  destruct (undo_gesture press moves s kept snap Hkeep) as [Hhist Hcanvas].
  split; [exact Hcanvas|]. split.
  - intros Hlen. rewrite Hhist, <- Hkeep. now apply slice_last_short.
  - intros Hlen. rewrite Hhist, <- Hkeep. now apply slice_last_full.
Qed.

(** X6. Once the image has loaded, undo right after a stroke takes the
    stroke away: the canvas shows the picture it showed before the press.
    With at most ten snapshots before the stroke the history is as it was;
    with eleven the oldest one has been dropped by the commit and does not
    come back. *)
Theorem undo_after_stroke
        (img : HTMLImageElement) (container : Container) (evs : list Event)
        (press : Pointer) (moves : list Pointer) :
  same_image img container evs ->
  let s := run (Loaded img container :: evs) initial in
  isDrawing s = false ->
  getImageData (canvas (undo (gesture press moves s))) = getImageData (canvas s)
  /\ (length (history s) <= 10 ->
      history (undo (gesture press moves s)) = history s)
  /\ (length (history s) = 11 ->
      history (undo (gesture press moves s)) = tail (history s)).
Proof.
  intros _ s Hidle.
  destruct (after_load img container evs) as [Hne Hshows]. fold s in Hne, Hshows.
  specialize (Hshows Hidle).
  destruct (exists_last Hne) as (earlier & snap & Hh).
  rewrite Hh, last_snoc in Hshows. injection Hshows as Hshows.
  rewrite <- Hshows. exact (undo_after_gesture press moves s earlier snap Hh).
Qed.

(** *** The preview of a rectangle or an arrow *)

Lemma preview_image (m m' : State) (e : Pointer) (snap : ImageData) (start : Point) :
  isDrawing m = true -> isDrawing m' = true ->
  startPoint m = Some start -> startPoint m' = Some start ->
  selectedTool m' = selectedTool m ->
  selectedTool m = RECTANGLE \/ selectedTool m = ARROW ->
  color m' = color m ->
  lineWidth m' = lineWidth m ->
  last (history m) = Some snap -> last (history m') = Some snap ->
  lineCap (canvas m') = lineCap (canvas m) ->
  lineJoin (canvas m') = lineJoin (canvas m) ->
  getImageData (canvas (draw m' e)) = getImageData (canvas (draw m e)).
Proof.
  intros Hd Hd' Hstart Hstart' Htool Hshape Hcolor Hwidth Hlast Hlast' Hcap Hjoin.
  unfold Editor.draw, Editor.draw_calls.
  rewrite Hd, Hd', Hstart, Hstart', Htool, Hcolor, Hwidth, Hlast, Hlast'.
  destruct Hshape as [-> | ->]; cbn; rewrite Hcap, Hjoin; reflexivity.
Qed.

(** X24. The preview of a rectangle or an arrow leaves no trail: once the
    image has loaded, the picture after any moves of the stroke is the
    picture the last move alone would give. With the rectangle it is the
    picture from before the press with one rectangle on it, from the press
    point to the pointer, in the chosen colour and width. *)
Theorem preview_leaves_no_trail
        (img : HTMLImageElement) (container : Container) (evs : list Event)
        (press : Pointer) (moves : list Pointer) (e : Pointer) :
  same_image img container evs ->
  let s := run (Loaded img container :: evs) initial in
  isDrawing s = false ->
  selectedTool s = RECTANGLE \/ selectedTool s = ARROW ->
  let start := getCoordinates press in
  let current := getCoordinates e in
  let mid := fold_left draw moves (startDrawing press s) in
  getImageData (canvas (draw mid e))
  = getImageData (canvas (draw (startDrawing press s) e))
  /\ (selectedTool s = RECTANGLE ->
      getImageData (canvas (draw mid e))
      = Stroked (getImageData (canvas s))
          [RectTo (x start) (y start) (x current - x start) (y current - y start)]
          (color s) (lineWidth s) "round" "round").
Proof.
  intros _ s Hidle Hshape start current mid.
  destruct (after_load img container evs) as [_ Hshows]. fold s in Hshows.
  specialize (Hshows Hidle).
  destruct (mid_gesture Math_atan2 Math_cos Math_sin press moves s)
    as (Hh & Hd & Hstart & Hsel & Hcol & Hlw & Hcap & Hjoin).
  fold mid in Hh, Hd, Hstart, Hsel, Hcol, Hlw, Hcap, Hjoin.
  assert (Hsame : getImageData (canvas (draw mid e))
                  = getImageData (canvas (draw (startDrawing press s) e))).
  { apply (preview_image (startDrawing press s) mid e (getImageData (canvas s))
             (getCoordinates press));
      try assumption; try reflexivity.
    rewrite Hh. exact Hshows. }
  split; [exact Hsame|]. intros Hrect. rewrite Hsame.
  unfold Editor.draw, Editor.draw_calls.
  cbn [startDrawing issue on_canvas isDrawing startPoint selectedTool history
       color lineWidth setStartPoint setIsDrawing].
  rewrite Hrect, Hshows. reflexivity.
Qed.

(** *** Clicks without a move *)

Lemma slice_last_snoc {A} (n : nat) (xs : list A) (a : A) :
  Js.slice_last (S n) (xs ++ [a]) = Js.slice_last n xs ++ [a].
Proof.
  unfold Js.slice_last. rewrite length_app. cbn [length].
  replace (length xs + 1 - S n)%nat with (length xs - n)%nat by lia.
  apply drop_app_le. lia.
Qed.

Lemma Forall_slice_last_slice {A} (P : A -> Prop) (n m : nat) (xs : list A) :
  Forall P (Js.slice_last n xs) -> Forall P (Js.slice_last n (Js.slice_last m xs)).
Proof.
  unfold Js.slice_last. rewrite drop_drop, length_drop. intros Hall.
  replace (length xs - m + (length xs - (length xs - m) - n))%nat
    with (length xs - n + (length xs - m - (length xs - n)))%nat by lia.
  rewrite <- drop_drop. now apply Forall_drop.
Qed.

Lemma Forall_all_equal {A} (a : A) (xs : list A) :
  Forall (fun b => b = a) xs -> xs = repeat a (length xs).
Proof.
  induction 1 as [|b xs -> _ IH]; [reflexivity|].
  cbn [length repeat]. now rewrite <- IH.
Qed.

Lemma click_keeps_surface (press : Pointer) (s : State) :
  getImageData (canvas (gesture press [] s)) = getImageData (canvas s).
Proof. reflexivity. Qed.

Lemma clicks_fill_history (presses : list Pointer) (s : State) :
  let clicked := fold_left (fun s press => gesture press [] s) presses s in
  getImageData (canvas clicked) = getImageData (canvas s)
  /\ Forall (fun snap => snap = getImageData (canvas s))
       (Js.slice_last (length presses) (history clicked)).
Proof.
  induction presses as [|press presses IH] using rev_ind; intros clicked.
  - split; [reflexivity|]. unfold Js.slice_last. rewrite Nat.sub_0_r, drop_all.
    constructor.
  - subst clicked. rewrite fold_left_app. cbn [fold_left].
    destruct IH as [Hsurface Hall].
    split; [rewrite click_keeps_surface; exact Hsurface|].
    rewrite gesture_history. cbn [fold_left].
    change (getImageData (canvas (startDrawing press ?s0)))
      with (getImageData (canvas s0)).
    rewrite Hsurface, length_app. cbn [length].
    replace (length presses + 1)%nat with (S (length presses)) by lia.
    rewrite slice_last_snoc. apply Forall_app. split.
    + now apply Forall_slice_last_slice.
    + constructor; [reflexivity|constructor].
Qed.

(** X8. A click without a move commits a snapshot all the same, a copy of
    the picture as it is. Eleven such clicks fill the history with copies
    of the current picture: every earlier snapshot is gone and undo can no
    longer change what the canvas shows. *)
Theorem clicks_evict_history (presses : list Pointer) (s : State) :
  11 <= length presses ->
  let clicked := fold_left (fun s press => gesture press [] s) presses s in
  getImageData (canvas clicked) = getImageData (canvas s)
  /\ history clicked = repeat (getImageData (canvas s)) 11
  /\ (forall n, getImageData (canvas (Nat.iter n undo clicked))
                = getImageData (canvas s)).
Proof.
  intros Hlen clicked.
  destruct (clicks_fill_history presses s) as [Hsurface Hall].
  assert (Hbounds : forall ps,
            Nat.min (length ps) 11
            <= length (history (fold_left (fun s press => gesture press [] s) ps s))
            /\ (ps <> [] ->
                length (history (fold_left (fun s press => gesture press [] s) ps s))
                <= 11)).
  { induction ps as [|press ps IH] using rev_ind; [split; [cbn; lia|congruence]|].
    rewrite fold_left_app. cbn [fold_left]. rewrite gesture_length, length_app.
    cbn [length]. destruct IH as [Hlow _]. split; [lia|intros _; lia]. }
  assert (Hlen11 : length (history clicked) = 11).
  { destruct (Hbounds presses) as [Hlow Hhigh].
    assert (presses <> []) by (intros ->; cbn in Hlen; lia).
    specialize (Hhigh ltac:(assumption)). unfold clicked. lia. }
  change (fold_left (fun s press => gesture press [] s) presses s)
    with clicked in Hsurface, Hall.
  clearbody clicked.
  rewrite slice_last_short in Hall by lia.
  assert (Hhist : history clicked = repeat (getImageData (canvas s)) 11).
  { rewrite (Forall_all_equal _ _ Hall), Hlen11. reflexivity. }
  split; [exact Hsurface|]. split; [exact Hhist|].
  intros n. induction n as [|n IH]; [exact Hsurface|].
  cbn [Nat.iter nat_rect]. fold (Nat.iter n undo clicked).
  assert (Hall' : Forall (fun snap => snap = getImageData (canvas s))
                    (history (Nat.iter n undo clicked))).
  { clear IH. induction n as [|n IHn]; [exact Hall|].
    cbn [Nat.iter nat_rect]. fold (Nat.iter n undo clicked).
    destruct (Nat.le_gt_cases (length (history (Nat.iter n undo clicked))) 1) as [Hle|Hgt].
    - now rewrite undo_short.
    - destruct (two_last _ Hgt) as (older & below & top & Hh).
      rewrite (undo_pops _ _ _ _ Hh). cbn [issue on_canvas setHistory history].
      rewrite Hh in IHn.
      replace (older ++ [below; top]) with ((older ++ [below]) ++ [top]) in IHn
        by (rewrite <- app_assoc; reflexivity).
      now apply Forall_app in IHn as [IHn _]. }
  destruct (Nat.le_gt_cases (length (history (Nat.iter n undo clicked))) 1) as [Hle|Hgt].
  - rewrite undo_short by exact Hle. exact IH.
  - destruct (two_last _ Hgt) as (older & below & top & Hh).
    rewrite (undo_pops _ _ _ _ Hh). cbn [issue on_canvas setHistory canvas].
    rewrite Hh in Hall'. apply Forall_app in Hall' as [_ Hall'].
    apply Forall_cons in Hall' as [Hbelow _]. exact Hbelow.
Qed.

(** *** The pen *)

Lemma draw_style (s : State) (e : Pointer) :
  strokeStyle (canvas s) = color s ->
  ctx_lineWidth (canvas s) = lineWidth s ->
  strokeStyle (canvas (draw s e)) = color s
  /\ ctx_lineWidth (canvas (draw s e)) = lineWidth s.
Proof.
  intros Hstyle Hwidth. unfold Editor.draw, Editor.draw_calls.
  destruct (isDrawing s), (startPoint s), (selectedTool s), (last (history s));
    split; cbn; assumption || reflexivity.
Qed.

Lemma moves_style (moves : list Pointer) (s : State) :
  strokeStyle (canvas s) = color s ->
  ctx_lineWidth (canvas s) = lineWidth s ->
  strokeStyle (canvas (fold_left draw moves s)) = color s
  /\ ctx_lineWidth (canvas (fold_left draw moves s)) = lineWidth s.
Proof.
  revert s. induction moves as [|e moves IH]; intros s Hstyle Hwidth; [now split|].
  cbn [fold_left]. destruct (draw_style s e Hstyle Hwidth) as [Hs Hw].
  destruct (IH (draw s e)) as [Hs' Hw']; [exact Hs|exact Hw|].
  split; assumption.
Qed.

Lemma pen_moves (press : Pointer) (moves : list Pointer) (s : State) :
  selectedTool s = PEN ->
  path (canvas (fold_left draw moves (startDrawing press s)))
  = MoveTo (x (getCoordinates press)) (y (getCoordinates press))
    :: map line_to moves.
Proof.
  intros Hpen.
  induction moves as [|e moves IH] using rev_ind; [reflexivity|].
  rewrite fold_left_app, map_app. cbn [fold_left map].
  destruct (mid_gesture Math_atan2 Math_cos Math_sin press moves s)
    as (_ & Hd & Hstart & Hsel & _).
  unfold Editor.draw at 1, Editor.draw_calls. rewrite Hd, Hstart, Hsel, Hpen.
  cbn. rewrite IH. reflexivity.
Qed.

(** X7. With the pen, every move adds a line to the point it is at to one
    growing path and strokes the whole path again on what is already
    there; the path after the moves starts at the press and runs through
    every point in order, and no move puts a snapshot back. *)
Theorem pen_stroke (press : Pointer) (moves : list Pointer) (e : Pointer) (s : State) :
  selectedTool s = PEN ->
  let mid := fold_left draw moves (startDrawing press s) in
  let start := MoveTo (x (getCoordinates press)) (y (getCoordinates press)) in
  path (canvas mid) = start :: map line_to moves
  /\ draw_calls mid e
     = [lineTo (x (getCoordinates e)) (y (getCoordinates e)); stroke]
  /\ getImageData (canvas (draw mid e))
     = Stroked (getImageData (canvas mid))
         (start :: map line_to (moves ++ [e]))
         (color s) (lineWidth s) "round" "round".
Proof.
  intros Hpen mid start.
  pose proof (pen_moves press moves s Hpen) as Hpath.
  pose proof (pen_moves press (moves ++ [e]) s Hpen) as Hnext.
  rewrite fold_left_app in Hnext. cbn [fold_left] in Hnext. fold mid in Hpath, Hnext.
  destruct (mid_gesture Math_atan2 Math_cos Math_sin press moves s)
    as (_ & Hd & Hstart & Hsel & Hcol & Hlw & Hcap & Hjoin).
  fold mid in Hd, Hstart, Hsel, Hcol, Hlw, Hcap, Hjoin.
  destruct (moves_style moves (startDrawing press s)) as [Hstyle Hwidth];
    [reflexivity|reflexivity|].
  fold mid in Hstyle, Hwidth.
  split; [exact Hpath|]. split.
  - unfold Editor.draw_calls. rewrite Hd, Hstart, Hsel, Hpen. reflexivity.
  - subst start. rewrite <- Hnext.
    unfold Editor.draw, Editor.draw_calls. rewrite Hd, Hstart, Hsel, Hpen.
    cbn. rewrite Hstyle, Hwidth, Hcap, Hjoin. reflexivity.
Qed.

End EditorMore.

(** ** Further properties of the application shell *)

Section AppMore.

Import App Release Consistency.

(** Run the actions of a handler on a world given by its fields. *)
Ltac run_all :=
  cbv beta iota zeta delta
    [mbind mret Act_bind Act_ret fmap option_fmap option_map
     call on_app on_browser read throw suspend try_catch after
     setMode setSettings setRecordingTime setScreenshotSrc
     assign_mediaRecorderRef assign_streamRef assign_chunksRef assign_timerRef
     assign_onended track_stop new_MediaRecorder with_state
     recorder_start recorder_stop setInterval clearInterval console_error
     updateSettings getVideoTracks
     ondataavailable tick interval_elapsed
     saveScreenshot onDiscard openSettings onClose panel
     record_hotkey screenshot_hotkey perform keydown
     app browser log fst snd
     mode settings recordingTime screenshotSrc mediaRecorderRef streamRef
     chunksRef timerRef
     live intervals onended next_track next_timer
     state mimeType videoBitsPerSecond videoTracks audioTracks].

(** Run a handler up to the questions it puts to the host. *)
Ltac run_to_host :=
  cbv beta iota zeta delta
    [startRecording takeScreenshot await_getDisplayMedia new_MediaRecorder
     mbind Act_bind read try_catch call after
     app browser log fst snd
     mode settings recordingTime screenshotSrc mediaRecorderRef streamRef
     chunksRef timerRef
     live intervals onended next_track next_timer].

(** Name the fields of a world. *)
Ltac world w :=
  destruct w as [[?m ?st ?rt ?ss ?mr ?sr ?ch ?tr] [?lv ?iv ?oe ?nt ?nm] ?lg];
  cbn [app browser log
       mode settings recordingTime screenshotSrc mediaRecorderRef streamRef
       chunksRef timerRef
       live intervals onended next_track next_timer] in *.

(** *** A recording from start to stop *)

(** X9. When the picker hands over a stream and the recorder takes the
    encoding, [startRecording] returns with the mode RECORDING, the clock at
    0, the chunks emptied, the recorder recording with the chosen encoding
    and the configured bitrate, the stream's tracks live and the video
    track's [onended] set, and a fresh interval timer armed and held in the
    ref; the settings and the screenshot are untouched. *)
Theorem startRecording_starts (h : Host) (w : World) (with_audio : bool) :
  getDisplayMedia h (Encoding.recording_options (settings (app w))) = Some with_audio ->
  recorder_accepts h (choose_mimeType h (settings (app w))) = true ->
  let w' := after (startRecording h) w in
  fst (startRecording h w) = Returned tt
  /\ mode (app w') = RECORDING
  /\ recordingTime (app w') = 0%Z
  /\ chunksRef (app w') = []
  /\ mediaRecorderRef (app w')
     = Some {| state := recording;
               mimeType := choose_mimeType h (settings (app w));
               videoBitsPerSecond := videoBitrate (settings (app w)) |}
  /\ (exists stream,
        streamRef (app w') = Some stream
        /\ getVideoTracks stream = [next_track (browser w)]
        /\ forall t, t ∈ getTracks stream -> t ∈ live (browser w'))
  /\ next_track (browser w) ∈ onended (browser w')
  /\ timerRef (app w') = Some (next_timer (browser w))
  /\ next_timer (browser w) ∈ intervals (browser w')
  /\ settings (app w') = settings (app w)
  /\ screenshotSrc (app w') = screenshotSrc (app w).
Proof.
  intros Hyes Hok. unfold Encoding.recording_options in Hyes. world w.
  run_to_host. rewrite Hyes, Hok. run_all.
  repeat (split; [reflexivity|]).
  split; [eexists; split; [reflexivity|split; [reflexivity|]]|].
  - intros t Ht. apply elem_of_union_r. now apply elem_of_list_to_set.
  - split; [set_solver|]. split; [reflexivity|]. split; [set_solver|].
    split; reflexivity.
Qed.

Lemma started_world (h : Host) (w : World) (with_audio : bool) :
  getDisplayMedia h (Encoding.recording_options (settings (app w))) = Some with_audio ->
  recorder_accepts h (choose_mimeType h (settings (app w))) = true ->
  let stream :=
    {| videoTracks := [next_track (browser w)];
       audioTracks :=
         if with_audio
            && bool_decide (is_Some (audio (Encoding.recording_options (settings (app w)))))
         then [S (next_track (browser w))] else [] |} in
  streamRef (app (after (startRecording h) w)) = Some stream
  /\ timerRef (app (after (startRecording h) w)) = Some (next_timer (browser w))
  /\ live (browser (after (startRecording h) w))
     = live (browser w) ∪ list_to_set (getTracks stream)
  /\ intervals (browser (after (startRecording h) w))
     = intervals (browser w) ∪ {[next_timer (browser w)]}.
Proof.
  intros Hyes Hok. unfold Encoding.recording_options in *. world w.
  run_to_host. rewrite Hyes, Hok. run_all. repeat split.
Qed.

(** X10. A recording that starts and is then stopped leaves the browser as
    it found it: with the identifiers the browser hands out being fresh,
    the tracks that are live and the timers that are armed after
    [stopRecording] are exactly those from before [startRecording]; the
    mode is idle and the recorder inactive. *)
Theorem start_then_stop_leaves_nothing (h : Host) (w : World) (with_audio : bool) :
  well_numbered w ->
  getDisplayMedia h (Encoding.recording_options (settings (app w))) = Some with_audio ->
  recorder_accepts h (choose_mimeType h (settings (app w))) = true ->
  let w' := after stopRecording (after (startRecording h) w) in
  mode (app w') = IDLE
  /\ live (browser w') = live (browser w)
  /\ intervals (browser w') = intervals (browser w)
  /\ recorder_active w' = false
  /\ released w'.
Proof.
  intros (Htracks & Htimers & Hpos) Hyes Hok w'.
  destruct (started_world h w with_audio Hyes Hok) as (Hstream & Htimer & Hlive & Hint).
  destruct (stopRecording_releases (after (startRecording h) w)) as (Hmode & Hrel & _).
  fold w' in Hmode, Hrel.
  split; [exact Hmode|].
  assert (Hrun := stopRecording_run (after (startRecording h) w)).
  assert (Hw' : w' = snd (stopRecording (after (startRecording h) w))) by reflexivity.
  rewrite Hrun in Hw'. cbn [snd] in Hw'.
  split; [|split; [|split; [|exact Hrel]]].
  - rewrite Hw'. cbn [browser live]. unfold held_tracks. rewrite Hstream, Hlive.
    set (ts := getTracks _).
    assert (Hfresh : forall t, t ∈ ts -> t ∉ live (browser w)).
    { intros t Ht Hin. apply Htracks in Hin. subst ts.
      unfold getTracks in Ht. cbn [videoTracks audioTracks] in Ht.
      destruct (_ && _) in Ht; set_solver by lia. }
    apply set_eq. intros t. rewrite elem_of_difference, elem_of_union, elem_of_list_to_set.
    split; [intros [[?|?] ?]; tauto|]. intros Hin. split; [now left|].
    intros Ht. now apply (Hfresh t).
  - rewrite Hw'. cbn [browser intervals]. unfold held_timer. rewrite Htimer, Hint.
    destruct (next_timer (browser w)) as [|k] eqn:Hnext; [lia|].
    assert (Hfresh : S k ∉ intervals (browser w)).
    { intros Hin. apply Htimers in Hin. lia. }
    cbn [list_to_set]. set_solver.
  - rewrite Hw'. unfold recorder_active at 1. cbn [app mediaRecorderRef].
    unfold recorder_active.
    destruct (mediaRecorderRef (app (after (startRecording h) w))) as [[[] ? ?]|];
      reflexivity.
Qed.

(** X11. When the picker is dismissed, [startRecording] returns having set
    the mode to idle and logged the diagnostic, and nothing else: the refs,
    the settings, the clock, the screenshot and the browser are as they
    were; no recorder is made and no timer armed. *)
Theorem startRecording_cancelled_changes_mode_only (h : Host) (w : World) :
  getDisplayMedia h (Encoding.recording_options (settings (app w))) = None ->
  let w' := after (startRecording h) w in
  fst (startRecording h w) = Returned tt
  /\ mode (app w') = IDLE
  /\ settings (app w') = settings (app w)
  /\ recordingTime (app w') = recordingTime (app w)
  /\ screenshotSrc (app w') = screenshotSrc (app w)
  /\ mediaRecorderRef (app w') = mediaRecorderRef (app w)
  /\ streamRef (app w') = streamRef (app w)
  /\ chunksRef (app w') = chunksRef (app w)
  /\ timerRef (app w') = timerRef (app w)
  /\ browser w' = browser w
  /\ log w'
     = log w ++ [call_getDisplayMedia (Encoding.recording_options (settings (app w)));
                 call_console_error "Error starting capture:";
                 call_setMode IDLE].
Proof.
  intros Hno. unfold Encoding.recording_options in *. world w.
  run_to_host. rewrite Hno. run_all. rewrite <- !app_assoc. repeat split.
Qed.

(** *** A screenshot *)

(** X12. When the picker hands over a stream and the hidden video plays,
    [takeScreenshot] returns with every track of that stream stopped: with
    fresh identifiers, the live tracks are those from before. With a 2D
    context the frame's data URL is in [screenshotSrc] and the mode is
    SCREENSHOT_PREVIEW; without one neither changes and nothing is logged
    to the console. The recording refs are never touched. *)
Theorem takeScreenshot_releases_stream (h : Host) (w : World) (with_audio : bool) :
  well_numbered w ->
  getDisplayMedia h Encoding.screenshot_options = Some with_audio ->
  video_plays h = true ->
  let w' := after (takeScreenshot h) w in
  fst (takeScreenshot h w) = Returned tt
  /\ live (browser w') = live (browser w)
  /\ call_track_stop (next_track (browser w)) ∈ log w'
  /\ (forall msg, call_console_error msg ∉ drop (length (log w)) (log w'))
  /\ (context_2d h = true ->
      screenshotSrc (app w') = Some (toDataURL h)
      /\ mode (app w') = SCREENSHOT_PREVIEW)
  /\ (context_2d h = false ->
      screenshotSrc (app w') = screenshotSrc (app w)
      /\ mode (app w') = mode (app w))
  /\ mediaRecorderRef (app w') = mediaRecorderRef (app w)
  /\ streamRef (app w') = streamRef (app w)
  /\ timerRef (app w') = timerRef (app w)
  /\ intervals (browser w') = intervals (browser w).
Proof.
  intros (Htracks & _ & _) Hyes Hplays. unfold Encoding.screenshot_options in *. world w.
  assert (Hfresh : nt ∉ lv) by (intros Hin; apply Htracks in Hin; lia).
  run_to_host. rewrite Hyes, Hplays.
  cbn [audio is_Some andb]. rewrite andb_false_r.
  destruct (context_2d h); run_all; unfold getTracks; cbn [videoTracks audioTracks List.app forEach];
    run_all; rewrite <- ?app_assoc; cbn [List.app].
  - split; [reflexivity|]. split; [set_solver|]. split; [set_solver|]. split.
    + intros msg. rewrite drop_app_length. set_solver.
    + split; [intros _; split; reflexivity|]. split; [discriminate|]. repeat split.
  - split; [reflexivity|]. split; [set_solver|]. split; [set_solver|]. split.
    + intros msg. rewrite drop_app_length. set_solver.
    + split; [discriminate|]. split; [intros _; split; reflexivity|]. repeat split.
Qed.

(** X13. When the stream comes but the hidden video never plays,
    [takeScreenshot] stays suspended at its await for good: nothing is
    caught, nothing is logged to the console, the component is unchanged,
    and the track it was given stays live; no later step of the handler
    stops it. *)
Theorem takeScreenshot_video_never_plays (h : Host) (w : World) (with_audio : bool) :
  getDisplayMedia h Encoding.screenshot_options = Some with_audio ->
  video_plays h = false ->
  let w' := after (takeScreenshot h) w in
  fst (takeScreenshot h w) = Suspended
  /\ app w' = app w
  /\ next_track (browser w) ∈ live (browser w')
  /\ log w' = log w ++ [call_getDisplayMedia Encoding.screenshot_options].
Proof.
  intros Hyes Hplays. unfold Encoding.screenshot_options in *. world w.
  run_to_host. rewrite Hyes, Hplays. run_all.
  split; [reflexivity|]. split; [reflexivity|]. split; [|reflexivity].
  unfold getTracks. cbn [videoTracks audioTracks List.app list_to_set]. set_solver.
Qed.

(** *** Settings *)

Lemma spread_same (s : AppSettings) (key : SettingsKey) (first second : field key) :
  spread (spread s key first) key second = spread s key second.
Proof. destruct key; reflexivity. Qed.

Lemma spread_swap (s : AppSettings) (k1 k2 : SettingsKey)
      (v1 : field k1) (v2 : field k2) :
  k1 <> k2 ->
  spread (spread s k1 v1) k2 v2 = spread (spread s k2 v2) k1 v1.
Proof. intros Hne. destruct k1, k2; try reflexivity; congruence. Qed.

(** X14. Updates of the settings compose as assignments do: two updates of
    different fields give the same world in either order, and of two
    updates of one field only the second one counts. *)
Theorem updateSettings_composes (w : World) (k1 k2 : SettingsKey)
        (v1 : field k1) (v2 : field k2) (again : field k1) :
  (k1 <> k2 ->
   after (updateSettings k2 v2) (after (updateSettings k1 v1) w)
   = after (updateSettings k1 v1) (after (updateSettings k2 v2) w))
  /\ after (updateSettings k1 again) (after (updateSettings k1 v1) w)
     = after (updateSettings k1 again) w.
Proof.
  world w. run_all. split.
  - intros Hne. now rewrite spread_swap.
  - now rewrite spread_same.
Qed.

Lemma choose_mimeType_showCursor (h : Host) (s : AppSettings) (shown : bool) :
  choose_mimeType h (spread s key_showCursor shown) = choose_mimeType h s.
Proof. reflexivity. Qed.

(** X15. The [showCursor] setting is never read when a recording starts:
    whatever its value, [startRecording] makes the same calls with the same
    arguments, ends the same way and leaves the same browser, mode and
    refs. *)
Theorem showCursor_is_not_read (h : Host) (w : World) (shown : bool) :
  let w0 := after (updateSettings key_showCursor shown) w in
  fst (startRecording h w0) = fst (startRecording h w)
  /\ log (after (startRecording h) w0) = log (after (startRecording h) w)
  /\ browser (after (startRecording h) w0) = browser (after (startRecording h) w)
  /\ mode (app (after (startRecording h) w0)) = mode (app (after (startRecording h) w))
  /\ mediaRecorderRef (app (after (startRecording h) w0))
     = mediaRecorderRef (app (after (startRecording h) w))
  /\ streamRef (app (after (startRecording h) w0))
     = streamRef (app (after (startRecording h) w))
  /\ timerRef (app (after (startRecording h) w0))
     = timerRef (app (after (startRecording h) w)).
Proof.
  world w. cbv zeta.
  change (after (updateSettings key_showCursor shown) ?w0)
    with {| app := {| mode := mode (app w0);
                      settings := spread (settings (app w0)) key_showCursor shown;
                      recordingTime := recordingTime (app w0);
                      screenshotSrc := screenshotSrc (app w0);
                      mediaRecorderRef := mediaRecorderRef (app w0);
                      streamRef := streamRef (app w0);
                      chunksRef := chunksRef (app w0);
                      timerRef := timerRef (app w0) |};
            browser := browser w0; log := log w0 |}.
  cbn [app browser log mode settings recordingTime screenshotSrc mediaRecorderRef
       streamRef chunksRef timerRef].
  run_to_host. rewrite choose_mimeType_showCursor.
  cbn [spread frameRate audioEnabled videoBitrate].
  destruct (getDisplayMedia h _) as [with_audio|]; [|run_all; repeat split].
  destruct (recorder_accepts h _); run_all; repeat split.
Qed.

(** *** The chunks *)

Lemma feed_run (chunks : list Blob) (w : World) :
  feed chunks w
  = (Returned tt,
     {| app :=
          {| mode := mode (app w); settings := settings (app w);
             recordingTime := recordingTime (app w);
             screenshotSrc := screenshotSrc (app w);
             mediaRecorderRef := mediaRecorderRef (app w);
             streamRef := streamRef (app w);
             chunksRef := chunksRef (app w)
                          ++ List.filter (fun data => (0 <? size data)%Z) chunks;
             timerRef := timerRef (app w) |};
        browser := browser w; log := log w |}).
Proof.
  revert w. unfold feed. induction chunks as [|data chunks IH]; intros w; world w.
  - cbn [forEach List.filter]. run_all. now rewrite app_nil_r.
  - cbn [forEach List.filter]. unfold mbind, Act_bind at 1.
    unfold ondataavailable at 1. destruct (0 <? size data)%Z.
    + unfold assign_chunksRef, on_app. cbv beta iota. rewrite IH.
      cbn [app browser log mode settings recordingTime screenshotSrc
           mediaRecorderRef streamRef chunksRef timerRef].
      now rewrite <- app_assoc.
    + unfold mret, Act_ret. cbv beta iota. rewrite IH. reflexivity.
Qed.

(** X16. The chunks the recorder hands over are kept in the order they
    come, after those already held, and the empty ones are dropped; nothing
    else changes. *)
Theorem chunks_kept_in_order (chunks : list Blob) (w : World) :
  chunksRef (app (after (feed chunks) w))
  = chunksRef (app w) ++ List.filter (fun data => (0 <? size data)%Z) chunks
  /\ fst (feed chunks w) = Returned tt
  /\ browser (after (feed chunks) w) = browser w
  /\ log (after (feed chunks) w) = log w
  /\ mode (app (after (feed chunks) w)) = mode (app w)
  /\ mediaRecorderRef (app (after (feed chunks) w)) = mediaRecorderRef (app w).
Proof.
  unfold after. rewrite feed_run. repeat split.
Qed.

(** *** The saved file *)

Lemma choose_mimeType_cases (h : Host) (s : AppSettings) :
  choose_mimeType h s ∈ "video/webm;codecs=vp9" :: mp4Types.
Proof.
  unfold choose_mimeType, mp4Types. destruct (saveFormat s); [|set_solver].
  cbn [find]. repeat (destruct (isTypeSupported h _); [cbn; set_solver|]).
  cbn. set_solver.
Qed.

Lemma choose_mimeType_none_supported (h : Host) (s : AppSettings) :
  Forall (fun t => isTypeSupported h t = false) mp4Types ->
  choose_mimeType h s = "video/webm;codecs=vp9".
Proof.
  intros Hnone. unfold choose_mimeType. destruct (saveFormat s); [|reflexivity].
  replace (find (isTypeSupported h) mp4Types) with (@None string); [reflexivity|].
  symmetry. induction Hnone as [|t ts Ht _ IH]; [reflexivity|].
  cbn [find]. now rewrite Ht.
Qed.

(** X17. The file of a recording: its content is the chunks held, one after
    the other; its type is the encoding the recorder was made with; its
    name is "recording-", the time in decimal, and an extension that follows
    the save format alone. So with mp4 asked for on a browser that supports
    none of the candidates, the file is named ".mp4" and holds
    "video/webm;codecs=vp9". *)
Theorem saved_recording (h : Host) (w : World) (chunks : list Blob) (now : Z) :
  mode (app (after (startRecording h) w)) = RECORDING ->
  let recorded := after (feed chunks) (after (startRecording h) w) in
  let file := saveRecording (settings (app w)) now recorded in
  size (href file)
  = fold_right Z.add 0%Z
      (map size (List.filter (fun data => (0 <? size data)%Z) chunks))
  /\ type (href file) = choose_mimeType h (settings (app w))
  /\ download file
     = ("recording-" ++ Js.number_toString now
        ++ match saveFormat (settings (app w)) with
           | mp4 => ".mp4"
           | webm => ".webm"
           end)%string
  /\ (saveFormat (settings (app w)) = mp4 ->
      Forall (fun t => isTypeSupported h t = false) mp4Types ->
      type (href file) = "video/webm;codecs=vp9"
      /\ download file = ("recording-" ++ Js.number_toString now ++ ".mp4")%string).
Proof.
  intros Hmode recorded file.
  destruct (startRecording_started h w Hmode) as (recorder & Href & _ & Hmime & _).
  assert (Hchunks : chunksRef (app (after (startRecording h) w)) = []).
  { revert Hmode. clear. world w. run_to_host.
    destruct (getDisplayMedia h _) as [with_audio|]; [|run_all; discriminate].
    destruct (recorder_accepts h _); run_all; [reflexivity|discriminate]. }
  assert (Hrec : mediaRecorderRef (app recorded) = Some recorder
                 /\ chunksRef (app recorded)
                    = List.filter (fun data => (0 <? size data)%Z) chunks).
  { subst recorded. unfold after at 1 3. rewrite feed_run.
    cbn [snd app mediaRecorderRef chunksRef]. rewrite Hchunks. now split. }
  destruct Hrec as [Hrecorder Hkept].
  assert (Htype : type (href file) = choose_mimeType h (settings (app w))).
  { subst file. unfold saveRecording. rewrite Hrecorder.
    cbn [fmap option_fmap option_map href new_Blob type]. rewrite Hmime.
    pose proof (choose_mimeType_cases h (settings (app w))) as Hcases.
    unfold mp4Types in Hcases.
    repeat (apply elem_of_cons in Hcases as [->|Hcases]); [| | | |inversion Hcases];
      reflexivity. }
  assert (Hname : download file
                  = ("recording-" ++ Js.number_toString now
                     ++ match saveFormat (settings (app w)) with
                        | mp4 => ".mp4"
                        | webm => ".webm"
                        end)%string).
  { subst file. unfold saveRecording. cbn [download].
    destruct (saveFormat (settings (app w))); reflexivity. }
  split; [subst file; unfold saveRecording; cbn [href new_Blob size]; now rewrite Hkept|].
  split; [exact Htype|]. split; [exact Hname|].
  intros Hfmt Hnone. split.
  - rewrite Htype. now apply choose_mimeType_none_supported.
  - rewrite Hname, Hfmt. reflexivity.
Qed.

(** *** Decimal numbers in names *)

Lemma number_toString_injective (a b : Z) :
  Js.number_toString a = Js.number_toString b -> a = b.
Proof.
  unfold Js.number_toString. intros Heq.
  assert (Hint : forall z, NilZero.int_of_string (NilZero.string_of_int (Z.to_int z))
                           = Some (Z.to_int z)).
  { intros z. apply NilZero.isi; destruct z; cbn; try discriminate;
      intros [=Hnil]; revert Hnil; apply DecimalPos.Unsigned.to_uint_nonnil. }
  pose proof (Hint a) as Ha. rewrite Heq, Hint in Ha. injection Ha as Ha.
  now apply DecimalZ.to_int_inj.
Qed.

Lemma digits_without_dot (d : uint) :
  ~ In "."%char (list_ascii_of_string (NilEmpty.string_of_uint d)).
Proof.
  induction d; cbn [NilEmpty.string_of_uint list_ascii_of_string In];
    [tauto|..]; intros [Hdot|Hin]; (discriminate Hdot || now apply IHd).
Qed.

Lemma number_without_dot (n : Z) :
  ~ In "."%char (list_ascii_of_string (Js.number_toString n)).
Proof.
  assert (Hunsigned : forall d,
            ~ In "."%char (list_ascii_of_string (NilZero.string_of_uint d))).
  { intros d. unfold NilZero.string_of_uint.
    destruct d; try apply digits_without_dot.
    cbn. intros [Hdot|[]]. discriminate Hdot. }
  unfold Js.number_toString, NilZero.string_of_int.
  destruct (Z.to_int n) as [d|d]; [apply Hunsigned|].
  cbn [list_ascii_of_string In]. intros [Hdot|Hin]; [discriminate Hdot|].
  now apply (Hunsigned d).
Qed.

Lemma cut_at_dot (a b rest_a rest_b : string) :
  ~ In "."%char (list_ascii_of_string a) ->
  ~ In "."%char (list_ascii_of_string b) ->
  (a ++ String "." rest_a)%string = (b ++ String "." rest_b)%string ->
  a = b /\ rest_a = rest_b.
Proof.
  revert b. induction a as [|c a IH]; intros [|c' b] Ha Hb Heq;
    cbn [String.append list_ascii_of_string In] in *.
  - injection Heq as <-. now split.
  - injection Heq as <- _. exfalso. apply Hb. now left.
  - injection Heq as -> _. exfalso. apply Ha. now left.
  - injection Heq as <- Heq.
    destruct (IH b) as [-> ->]; [tauto|tauto|exact Heq|]. now split.
Qed.

(** X18. The name of a saved recording tells when it was saved and in which
    format: two names are the same only for the same time and the same save
    format. *)
Theorem recording_name_tells_time_and_format
        (first second : AppSettings) (t1 t2 : Z) (w1 w2 : World) :
  download (saveRecording first t1 w1) = download (saveRecording second t2 w2) ->
  t1 = t2 /\ saveFormat first = saveFormat second.
Proof.
  unfold saveRecording. cbn [download]. intros Heq.
  change ("recording-" ++ ?rest)%string
    with (String "r" (String "e" (String "c" (String "o" (String "r" (String "d"
           (String "i" (String "n" (String "g" (String "-" rest)))))))))) in Heq.
  injection Heq as Heq.
  change ("." ++ ?ext)%string with (String "." ext) in Heq.
  apply cut_at_dot in Heq as [Htime Hext]; try apply number_without_dot.
  split; [now apply number_toString_injective|].
  destruct (saveFormat first), (saveFormat second); try reflexivity; discriminate Hext.
Qed.

(** *** The clock *)

Lemma formatTime_table :
  forallb
    (fun n : nat =>
       let t := Z.of_nat n in
       String.eqb (formatTime t)
         (String (ascii_of_N (48 + Z.to_N (t / 600)))
            (String (ascii_of_N (48 + Z.to_N ((t / 60) mod 10)))
               (String ":"
                  (String (ascii_of_N (48 + Z.to_N ((t mod 60) / 10)))
                     (String (ascii_of_N (48 + Z.to_N (t mod 10))) ""))))))
    (seq 0 (Z.to_nat 6000)) = true.
Proof. vm_compute. reflexivity. Qed.

(** X19. Up to 99 minutes and 59 seconds the clock reads mm:ss, five
    characters, each field two decimal digits padded with 0: the minutes
    are the seconds divided by 60 and the seconds shown are the
    remainder. *)
Theorem formatTime_reads_minutes_and_seconds (seconds : Z) :
  (0 <= seconds < 6000)%Z ->
  formatTime seconds
  = String (ascii_of_N (48 + Z.to_N (seconds / 600)))
      (String (ascii_of_N (48 + Z.to_N ((seconds / 60) mod 10)))
         (String ":"
            (String (ascii_of_N (48 + Z.to_N ((seconds mod 60) / 10)))
               (String (ascii_of_N (48 + Z.to_N (seconds mod 10))) ""))))
  /\ String.length (formatTime seconds) = 5.
Proof.
  intros Hrange.
  pose proof formatTime_table as Htable. rewrite forallb_forall in Htable.
  specialize (Htable (Z.to_nat seconds)).
  rewrite Z2Nat.id in Htable by lia. cbv zeta in Htable.
  assert (Heq : formatTime seconds
                = String (ascii_of_N (48 + Z.to_N (seconds / 600)))
                    (String (ascii_of_N (48 + Z.to_N ((seconds / 60) mod 10)))
                       (String ":"
                          (String (ascii_of_N (48 + Z.to_N ((seconds mod 60) / 10)))
                             (String (ascii_of_N (48 + Z.to_N (seconds mod 10))) ""))))).
  { apply String.eqb_eq, Htable, in_seq. lia. }
  split; [exact Heq|]. rewrite Heq. reflexivity.
Qed.

Lemma interval_elapsed_run (id : nat) (w : World) :
  after (interval_elapsed id) w
  = if bool_decide (id ∈ intervals (browser w)) then after tick w else w.
Proof.
  world w. unfold interval_elapsed, after, mbind, Act_bind, read.
  cbn [browser intervals fst snd]. destruct (bool_decide (id ∈ iv)); reflexivity.
Qed.

Lemma tick_run (w : World) :
  recordingTime (app (after tick w)) = (recordingTime (app w) + 1)%Z
  /\ browser (after tick w) = browser w
  /\ mode (app (after tick w)) = mode (app w).
Proof. world w. run_all. repeat split. Qed.

(** X20. The clock counts the times the interval comes due while it is
    armed: after [k] of them the recording time is [k] more. Once
    [stopRecording] has cleared the timer the ref holds, the interval coming
    due changes nothing: the clock stops with the recording. The time is not
    reset by stopping. *)
Theorem clock_counts_while_armed (id : nat) (k : nat) (w : World) :
  (id ∈ intervals (browser w) ->
   recordingTime (app (Nat.iter k (after (interval_elapsed id)) w))
   = (recordingTime (app w) + Z.of_nat k)%Z)
  /\ (timerRef (app w) = Some (S id) ->
      Nat.iter k (after (interval_elapsed (S id))) (after stopRecording w)
      = after stopRecording w
      /\ recordingTime (app (after stopRecording w)) = recordingTime (app w)).
Proof.
  split.
  - intros Harmed.
    assert (Hboth : recordingTime (app (Nat.iter k (after (interval_elapsed id)) w))
                    = (recordingTime (app w) + Z.of_nat k)%Z
                    /\ browser (Nat.iter k (after (interval_elapsed id)) w) = browser w).
    { induction k as [|k [IHtime IHbrowser]]; [split; [cbn; lia|reflexivity]|].
      cbn [Nat.iter nat_rect]. fold (Nat.iter k (after (interval_elapsed id)) w).
      rewrite interval_elapsed_run, IHbrowser, (bool_decide_eq_true_2 _ Harmed).
      destruct (tick_run (Nat.iter k (after (interval_elapsed id)) w)) as (-> & -> & _).
      split; [lia|exact IHbrowser]. }
    exact (proj1 Hboth).
  - intros Hheld.
    destruct (stopRecording_releases w) as (_ & [_ Htimer] & _).
    destruct (stopRecording_held w) as [_ Hsame].
    assert (Hoff : S id ∉ intervals (browser (after stopRecording w))).
    { apply Htimer. rewrite Hsame. unfold held_timer. rewrite Hheld. set_solver. }
    split.
    + induction k as [|k IH]; [reflexivity|].
      cbn [Nat.iter nat_rect]. fold (Nat.iter k (after (interval_elapsed (S id)))
                                       (after stopRecording w)).
      rewrite IH, interval_elapsed_run, (bool_decide_eq_false_2 _ Hoff). reflexivity.
    + unfold after. rewrite stopRecording_run. reflexivity.
Qed.

(** *** Leaving the editor *)

(** X21. A screenshot taken from the idle application and then discarded,
    or saved, leaves the component exactly as it was: idle, with no
    screenshot held. Saving names the file "screenshot-", the time in
    decimal, ".png". *)
Theorem screenshot_then_leave (h : Host) (w : World) (with_audio : bool)
        (blob : Blob) (now : Z) :
  getDisplayMedia h Encoding.screenshot_options = Some with_audio ->
  video_plays h = true ->
  context_2d h = true ->
  mode (app w) = IDLE ->
  screenshotSrc (app w) = None ->
  let shot := after (takeScreenshot h) w in
  mode (app shot) = SCREENSHOT_PREVIEW
  /\ screenshotSrc (app shot) = Some (toDataURL h)
  /\ app (after onDiscard shot) = app w
  /\ app (after (saveScreenshot blob now) shot) = app w
  /\ fst (saveScreenshot blob now shot)
     = Returned {| href := blob;
                   download := ("screenshot-" ++ Js.number_toString now ++ ".png")%string |}.
Proof.
  intros Hyes Hplays Hctx Hmode Hsrc. unfold Encoding.screenshot_options in *. world w.
  subst. cbv zeta. run_to_host. rewrite Hyes, Hplays, Hctx.
  cbn [audio is_Some andb]. rewrite andb_false_r.
  run_all. unfold getTracks. cbn [videoTracks audioTracks List.app forEach].
  run_all. repeat split.
Qed.

(** *** Key-down events *)

Lemma bound_chord (k : string) (ev : Hotkeys.KeyboardEvent) :
  k = "r" \/ k = "s" ->
  Hotkeys.handleKeyDown ("ctrl+shift+" ++ k) ev
  = if Hotkeys.ctrlKey ev && Hotkeys.shiftKey ev
       && String.eqb (Js.toLowerCase (Hotkeys.key ev)) k
    then [Hotkeys.PreventDefault; Hotkeys.Callback] else [].
Proof.
  intros [-> | ->].
  - rewrite (handleKeyDown_well_formed "ctrl+shift+r" "r") by reflexivity.
    unfold Chord.modifiers_held. cbn.
    destruct (Hotkeys.ctrlKey ev), (Hotkeys.shiftKey ev); reflexivity.
  - rewrite (handleKeyDown_well_formed "ctrl+shift+s" "s") by reflexivity.
    unfold Chord.modifiers_held. cbn.
    destruct (Hotkeys.ctrlKey ev), (Hotkeys.shiftKey ev); reflexivity.
Qed.

(** X22. What a key-down event reaches. With ctrl and shift held, "r"
    starts a recording from idle and stops it while recording, and "s"
    takes a screenshot from idle; in every other mode, and for every other
    key, the event changes nothing. No event reaches both callbacks. Each
    listener suppresses the default action and calls its callback exactly
    when its chord matches, whatever the mode: also in the modes where the
    callback does nothing. *)
Theorem keydown_by_mode (h : Host) (ev : Hotkeys.KeyboardEvent) (w : World) :
  let held := Hotkeys.ctrlKey ev && Hotkeys.shiftKey ev in
  let r := held && String.eqb (Js.toLowerCase (Hotkeys.key ev)) "r" in
  let s := held && String.eqb (Js.toLowerCase (Hotkeys.key ev)) "s" in
  r && s = false
  /\ after (keydown h ev) w
     = match mode (app w) with
       | IDLE => if r then after (startRecording h) w
                 else if s then after (takeScreenshot h) w
                 else w
       | RECORDING => if r then after stopRecording w else w
       | _ => w
       end
  /\ Hotkeys.handleKeyDown "ctrl+shift+r" ev
     = (if r then [Hotkeys.PreventDefault; Hotkeys.Callback] else [])
  /\ Hotkeys.handleKeyDown "ctrl+shift+s" ev
     = (if s then [Hotkeys.PreventDefault; Hotkeys.Callback] else []).
Proof.
  intros held r s.
  assert (Hnot : r && s = false).
  { subst r s. destruct held; [cbn [andb]|reflexivity].
    destruct (String.eqb_spec (Js.toLowerCase (Hotkeys.key ev)) "r") as [->|];
      reflexivity. }
  split; [exact Hnot|].
  pose proof (bound_chord "r" ev (or_introl eq_refl)) as Hr.
  pose proof (bound_chord "s" ev (or_intror eq_refl)) as Hs.
  change ("ctrl+shift+" ++ "r")%string with "ctrl+shift+r" in Hr.
  change ("ctrl+shift+" ++ "s")%string with "ctrl+shift+s" in Hs.
  fold held in Hr, Hs. fold r in Hr. fold s in Hs.
  split; [|split; [exact Hr|exact Hs]].
  unfold keydown, after. world w.
  unfold mbind, Act_bind, read. cbn [app mode]. rewrite Hr, Hs.
  clearbody r s. clear Hr Hs held.
  destruct r, s; try discriminate Hnot; destruct m;
    unfold perform, record_hotkey, screenshot_hotkey, mbind, Act_bind, mret, Act_ret;
    cbn [existsb orb fst snd];
    try reflexivity.
  - destruct (startRecording h _) as [[[]|err|] w1]; reflexivity.
  - destruct (stopRecording _) as [[[]|err|] w1]; reflexivity.
  - destruct (takeScreenshot h _) as [[[]|err|] w1]; reflexivity.
Qed.

(** *** The settings panel *)

Lemma panel_step (e : PanelEvent) (w : World) :
  showCursor (settings (app (after (panel e) w))) = showCursor (settings (app w))
  /\ browser (after (panel e) w) = browser w
  /\ mediaRecorderRef (app (after (panel e) w)) = mediaRecorderRef (app w)
  /\ streamRef (app (after (panel e) w)) = streamRef (app w)
  /\ timerRef (app (after (panel e) w)) = timerRef (app w)
  /\ screenshotSrc (app (after (panel e) w)) = screenshotSrc (app w)
  /\ (e <> CloseClicked ->
      mode (app (after (panel e) w)) = mode (app w) /\ log (after (panel e) w) = log w)
  /\ (e = CloseClicked ->
      mode (app (after (panel e) w)) = IDLE
      /\ settings (app (after (panel e) w)) = settings (app w)).
Proof.
  world w. destruct e; run_all; repeat split; congruence.
Qed.

(** X23. Nothing the user does in the settings panel changes [showCursor]:
    the panel has no control for it. The panel never touches the browser,
    the refs or the screenshot either; only closing it changes the mode, to
    idle, and closing changes no setting. *)
Theorem panel_never_sets_showCursor (events : list PanelEvent) (w : World) :
  let w' := fold_left (fun w e => after (panel e) w) events w in
  showCursor (settings (app w')) = showCursor (settings (app w))
  /\ browser w' = browser w
  /\ mediaRecorderRef (app w') = mediaRecorderRef (app w)
  /\ streamRef (app w') = streamRef (app w)
  /\ timerRef (app w') = timerRef (app w)
  /\ screenshotSrc (app w') = screenshotSrc (app w)
  /\ (CloseClicked ∉ events -> mode (app w') = mode (app w) /\ log w' = log w)
  /\ (forall earlier, events = earlier ++ [CloseClicked] ->
        mode (app w') = IDLE
        /\ settings (app w')
           = settings (app (fold_left (fun w e => after (panel e) w) earlier w))).
Proof.
  cbv zeta. revert w. induction events as [|e events IH] using rev_ind; intros w.
  - do 6 (split; [reflexivity|]). split; [now intros _|].
    intros [|? ?] Heq; discriminate Heq.
  - rewrite fold_left_app. cbn [fold_left].
    destruct (IH w) as (Hc & Hb & Hr & Hs & Ht & Hsrc & Hopen & _).
    destruct (panel_step e (fold_left (fun w e => after (panel e) w) events w))
      as (Hc' & Hb' & Hr' & Hs' & Ht' & Hsrc' & Hopen' & Hclose').
    split; [congruence|]. split; [congruence|]. split; [congruence|].
    split; [congruence|]. split; [congruence|]. split; [congruence|]. split.
    + intros Hnot.
      assert (He : e <> CloseClicked) by (intros ->; apply Hnot; set_solver).
      assert (Hevents : CloseClicked ∉ events) by (intros Hin; apply Hnot; set_solver).
      destruct (Hopen' He) as [-> ->]. now apply Hopen.
    + intros earlier Heq. apply app_inj_tail in Heq as [-> ->].
      now apply Hclose'.
Qed.

End AppMore.

(** ** The further properties on concrete inputs *)

Section MoreExamples.

Import Sample.

(** A description with a doubled "+" never fires, here on ctrl+shift+R. *)
Lemma handleKeyDown_fires_iff_witness :
  let ev := {| Hotkeys.ctrlKey := true; Hotkeys.shiftKey := true;
               Hotkeys.altKey := false; Hotkeys.metaKey := false;
               Hotkeys.key := "R" |} in
  Js.is_ascii "ctrl++r" = true
  /\ Js.is_ascii (Hotkeys.key ev) = true
  /\ Chord.key_pieces "ctrl++r" = [""; "r"]
  /\ Hotkeys.handleKeyDown "ctrl++r" ev = [].
Proof.
  intros ev.
  assert (Hchord : Js.is_ascii "ctrl++r" = true) by reflexivity.
  assert (Hkey : Js.is_ascii (Hotkeys.key ev) = true) by reflexivity.
  assert (Hpieces : Chord.key_pieces "ctrl++r" = [""; "r"]) by reflexivity.
  split; [exact Hchord|]. split; [exact Hkey|]. split; [exact Hpieces|].
  destruct (handleKeyDown_fires_iff "ctrl++r" ev Hchord Hkey) as [Hiff Hquiet].
  apply Hquiet. intros Hfires. apply Hiff in Hfires as (_ & _ & [Hnone|(K & HK & _)]).
  - rewrite Hpieces in Hnone. discriminate Hnone.
  - rewrite Hpieces in HK. discriminate HK.
Defined.

(** "Shift+Ctrl+R" and "ctrl+shift+r" name the same chord. *)
Lemma handleKeyDown_order_and_case_witness :
  map Js.toLowerCase (Chord.pieces "Shift+Ctrl+R")
  ≡ₚ map Js.toLowerCase (Chord.pieces "ctrl+shift+r")
  /\ forall ev,
       Hotkeys.handleKeyDown "Shift+Ctrl+R" ev = Hotkeys.handleKeyDown "ctrl+shift+r" ev.
Proof.
  assert (Hperm : map Js.toLowerCase (Chord.pieces "Shift+Ctrl+R")
                  ≡ₚ map Js.toLowerCase (Chord.pieces "ctrl+shift+r")).
  { vm_compute. apply perm_swap. }
  split; [exact Hperm|]. intros ev.
  exact (handleKeyDown_order_and_case "Shift+Ctrl+R" "ctrl+shift+r" ev Hperm).
Defined.

(** A move and a release on the loaded editor, no button down. *)
Lemma pointer_outside_stroke_witness :
  Editor.isDrawing loaded = false
  /\ Editor.draw atan2 cos sin loaded move1 = loaded
  /\ Editor.endDrawing loaded = loaded.
Proof.
  assert (Hidle : Editor.isDrawing loaded = false) by reflexivity.
  destruct (pointer_outside_stroke atan2 cos sin loaded move1 Hidle) as (Hmove & Hup & _).
  split; [exact Hidle|]. split; [exact Hmove|exact Hup].
Defined.

(** Load, draw a rectangle, undo, draw again. *)
Lemma canvas_shows_last_snapshot_witness :
  let evs := [Editor.SelectTool RECTANGLE;
              Editor.Press press; Editor.Move move1; Editor.Release;
              Editor.ClickUndo;
              Editor.Press press; Editor.Move move2; Editor.Release] in
  let s := Editor.run atan2 cos sin (Editor.Loaded image container :: evs)
             Editor.initial in
  Consistency.same_image image container evs
  /\ Editor.isDrawing s = false
  /\ last (Editor.history s) = Some (Editor.getImageData (Editor.canvas s)).
Proof.
  intros evs s.
  assert (Hsame : Consistency.same_image image container evs)
    by (repeat constructor).
  assert (Hidle : Editor.isDrawing s = false) by reflexivity.
  split; [exact Hsame|]. split; [exact Hidle|].
  exact (canvas_shows_last_snapshot atan2 cos sin image container evs Hsame Hidle).
Defined.

(** The loaded editor, a stroke, and three undos. *)
Lemma history_never_emptied_witness :
  let evs := [Editor.Press press; Editor.Move move1; Editor.Release;
              Editor.ClickUndo; Editor.ClickUndo; Editor.ClickUndo] in
  Editor.history loaded <> []
  /\ Editor.history (Editor.run atan2 cos sin evs loaded) <> [].
Proof.
  intros evs.
  assert (Hne : Editor.history loaded <> []).
  { intros Hnil. apply (f_equal length) in Hnil. vm_compute in Hnil. discriminate Hnil. }
  split; [exact Hne|].
  exact (proj1 (history_never_emptied atan2 cos sin evs loaded Hne)).
Defined.

(** A rectangle drawn on the loaded editor and undone. *)
Lemma undo_after_stroke_witness :
  let evs := [Editor.SelectTool RECTANGLE] in
  let s := Editor.run atan2 cos sin (Editor.Loaded image container :: evs)
             Editor.initial in
  let undone := Editor.undo (Editor.gesture atan2 cos sin press [move1; move2] s) in
  Consistency.same_image image container evs
  /\ Editor.isDrawing s = false
  /\ Editor.getImageData (Editor.canvas undone) = Editor.getImageData (Editor.canvas s).
Proof.
  intros evs s undone.
  assert (Hsame : Consistency.same_image image container evs)
    by (repeat constructor).
  assert (Hidle : Editor.isDrawing s = false) by reflexivity.
  split; [exact Hsame|]. split; [exact Hidle|].
  exact (proj1 (undo_after_stroke atan2 cos sin image container evs
                  press [move1; move2] Hsame Hidle)).
Defined.

(** A rectangle dragged through two points on the loaded editor. *)
Lemma preview_leaves_no_trail_witness :
  let evs := [Editor.SelectTool RECTANGLE] in
  let s := Editor.run atan2 cos sin (Editor.Loaded image container :: evs)
             Editor.initial in
  let mid := fold_left (Editor.draw atan2 cos sin) [move1]
               (Editor.startDrawing press s) in
  Consistency.same_image image container evs
  /\ Editor.isDrawing s = false
  /\ Editor.selectedTool s = RECTANGLE
  /\ Editor.getImageData (Editor.canvas (Editor.draw atan2 cos sin mid move2))
     = Editor.getImageData
         (Editor.canvas (Editor.draw atan2 cos sin (Editor.startDrawing press s) move2)).
Proof.
  intros evs s mid.
  assert (Hsame : Consistency.same_image image container evs)
    by (repeat constructor).
  assert (Hidle : Editor.isDrawing s = false) by reflexivity.
  assert (Hrect : Editor.selectedTool s = RECTANGLE) by reflexivity.
  split; [exact Hsame|]. split; [exact Hidle|]. split; [exact Hrect|].
  exact (proj1 (preview_leaves_no_trail atan2 cos sin image container evs
                  press [move1] move2 Hsame Hidle (or_introl Hrect))).
Defined.

(** A pen stroke through two points, and a third move. *)
Lemma pen_stroke_witness :
  let mid := fold_left (Editor.draw atan2 cos sin) [move1; move2]
               (Editor.startDrawing press loaded_pen) in
  Editor.selectedTool loaded_pen = PEN
  /\ Editor.path (Editor.canvas mid)
     = Editor.MoveTo (x (Editor.getCoordinates press))
         (y (Editor.getCoordinates press))
       :: map Consistency.line_to [move1; move2].
Proof.
  intros mid.
  assert (Hpen : Editor.selectedTool loaded_pen = PEN) by reflexivity.
  split; [exact Hpen|].
  exact (proj1 (pen_stroke atan2 cos sin press [move1; move2] press loaded_pen Hpen)).
Defined.

(** Eleven clicks on the loaded editor. *)
Lemma clicks_evict_history_witness :
  let clicked := fold_left (fun s press => Editor.gesture atan2 cos sin press [] s)
                   (repeat press 11) loaded in
  11 <= length (repeat press 11)
  /\ Editor.history clicked = repeat (Editor.getImageData (Editor.canvas loaded)) 11.
Proof.
  intros clicked.
  assert (Hlen : 11 <= length (repeat press 11)) by (rewrite repeat_length; lia).
  split; [exact Hlen|].
  exact (proj1 (proj2 (clicks_evict_history atan2 cos sin (repeat press 11) loaded Hlen))).
Defined.

(** A recording started from the application as mounted. *)
Lemma startRecording_starts_witness :
  let w' := App.after (App.startRecording supports_all) App.initial in
  App.getDisplayMedia supports_all
    (Encoding.recording_options (App.settings (App.app App.initial))) = Some false
  /\ App.recorder_accepts supports_all
       (App.choose_mimeType supports_all (App.settings (App.app App.initial))) = true
  /\ App.mode (App.app w') = RECORDING
  /\ App.recordingTime (App.app w') = 0%Z
  /\ App.chunksRef (App.app w') = [].
Proof.
  intros w'.
  assert (Hyes : App.getDisplayMedia supports_all
                   (Encoding.recording_options (App.settings (App.app App.initial)))
                 = Some false) by reflexivity.
  assert (Hok : App.recorder_accepts supports_all
                  (App.choose_mimeType supports_all (App.settings (App.app App.initial)))
                = true) by reflexivity.
  destruct (startRecording_starts supports_all App.initial false Hyes Hok)
    as (_ & Hmode & Htime & Hchunks & _).
  split; [exact Hyes|]. split; [exact Hok|]. split; [exact Hmode|].
  split; [exact Htime|exact Hchunks].
Defined.

(** The same recording, stopped. *)
Lemma start_then_stop_leaves_nothing_witness :
  let w' := App.after App.stopRecording
              (App.after (App.startRecording supports_all) App.initial) in
  Consistency.well_numbered App.initial
  /\ App.mode (App.app w') = IDLE
  /\ App.live (App.browser w') = App.live (App.browser App.initial)
  /\ App.intervals (App.browser w') = App.intervals (App.browser App.initial).
Proof.
  intros w'.
  assert (Hfresh : Consistency.well_numbered App.initial).
  { unfold Consistency.well_numbered, App.initial.
    cbn [App.browser App.live App.intervals App.next_track App.next_timer].
    split; [set_solver|]. split; [set_solver|lia]. }
  assert (Hyes : App.getDisplayMedia supports_all
                   (Encoding.recording_options (App.settings (App.app App.initial)))
                 = Some false) by reflexivity.
  assert (Hok : App.recorder_accepts supports_all
                  (App.choose_mimeType supports_all (App.settings (App.app App.initial)))
                = true) by reflexivity.
  destruct (start_then_stop_leaves_nothing supports_all App.initial false Hfresh Hyes Hok)
    as (Hmode & Hlive & Htimers & _).
  split; [exact Hfresh|]. split; [exact Hmode|]. split; [exact Hlive|exact Htimers].
Defined.

(** A recording asked for with the picker dismissed. *)
Lemma startRecording_cancelled_changes_mode_only_witness :
  let w' := App.after (App.startRecording picker_cancelled) webm_chosen in
  App.getDisplayMedia picker_cancelled
    (Encoding.recording_options (App.settings (App.app webm_chosen))) = None
  /\ App.mode (App.app w') = IDLE
  /\ App.settings (App.app w') = App.settings (App.app webm_chosen).
Proof.
  intros w'.
  assert (Hno : App.getDisplayMedia picker_cancelled
                  (Encoding.recording_options (App.settings (App.app webm_chosen)))
                = None) by reflexivity.
  destruct (startRecording_cancelled_changes_mode_only picker_cancelled webm_chosen Hno)
    as (_ & Hmode & Hsettings & _).
  split; [exact Hno|]. split; [exact Hmode|exact Hsettings].
Defined.

(** A screenshot taken from the application as mounted. *)
Lemma takeScreenshot_releases_stream_witness :
  let w' := App.after (App.takeScreenshot supports_all) App.initial in
  App.getDisplayMedia supports_all Encoding.screenshot_options = Some false
  /\ App.video_plays supports_all = true
  /\ fst (App.takeScreenshot supports_all App.initial) = App.Returned tt
  /\ App.live (App.browser w') = App.live (App.browser App.initial).
Proof.
  intros w'.
  assert (Hfresh : Consistency.well_numbered App.initial).
  { unfold Consistency.well_numbered, App.initial.
    cbn [App.browser App.live App.intervals App.next_track App.next_timer].
    split; [set_solver|]. split; [set_solver|lia]. }
  assert (Hyes : App.getDisplayMedia supports_all Encoding.screenshot_options = Some false)
    by reflexivity.
  assert (Hplays : App.video_plays supports_all = true) by reflexivity.
  destruct (takeScreenshot_releases_stream supports_all App.initial false
              Hfresh Hyes Hplays) as (Hret & Hlive & _).
  split; [exact Hyes|]. split; [exact Hplays|]. split; [exact Hret|exact Hlive].
Defined.

(** A screenshot asked for on a browser whose hidden video stalls. *)
Lemma takeScreenshot_video_never_plays_witness :
  let w' := App.after (App.takeScreenshot video_stalls) App.initial in
  App.getDisplayMedia video_stalls Encoding.screenshot_options = Some false
  /\ App.video_plays video_stalls = false
  /\ fst (App.takeScreenshot video_stalls App.initial) = App.Suspended
  /\ App.app w' = App.app App.initial
  /\ App.next_track (App.browser App.initial) ∈ App.live (App.browser w').
Proof.
  intros w'.
  assert (Hyes : App.getDisplayMedia video_stalls Encoding.screenshot_options = Some false)
    by reflexivity.
  assert (Hstalls : App.video_plays video_stalls = false) by reflexivity.
  destruct (takeScreenshot_video_never_plays video_stalls App.initial false Hyes Hstalls)
    as (Hout & Happ & Hlive & _).
  split; [exact Hyes|]. split; [exact Hstalls|]. split; [exact Hout|].
  split; [exact Happ|exact Hlive].
Defined.

(** A recording asked for as mp4 on a browser that records webm only, two
    chunks in, saved at time 1700000000000. *)
Lemma saved_recording_witness :
  let chunks := [{| App.size := 5; App.type := "video/webm" |};
                 {| App.size := 7; App.type := "video/webm" |}] in
  let recorded := App.after (App.feed chunks)
                    (App.after (App.startRecording webm_only) App.initial) in
  let file := App.saveRecording (App.settings (App.app App.initial)) 1700000000000
                recorded in
  App.mode (App.app (App.after (App.startRecording webm_only) App.initial)) = RECORDING
  /\ App.type (App.href file) = "video/webm;codecs=vp9"
  /\ App.download file
     = ("recording-" ++ Js.number_toString 1700000000000 ++ ".mp4")%string.
Proof.
  intros chunks recorded file.
  assert (Hmode : App.mode (App.app (App.after (App.startRecording webm_only) App.initial))
                  = RECORDING) by reflexivity.
  assert (Hmp4 : saveFormat (App.settings (App.app App.initial)) = mp4) by reflexivity.
  assert (Hnone : Forall (fun t => App.isTypeSupported webm_only t = false) App.mp4Types).
  { repeat constructor. }
  destruct (saved_recording webm_only App.initial chunks 1700000000000 Hmode)
    as (_ & _ & _ & Hmismatch).
  split; [exact Hmode|]. exact (Hmismatch Hmp4 Hnone).
Defined.

(** Two recordings saved under the same name. *)
Lemma recording_name_tells_time_and_format_witness :
  App.download (App.saveRecording App.DEFAULT_SETTINGS 1700000000000 App.initial)
  = App.download (App.saveRecording App.DEFAULT_SETTINGS 1700000000000 webm_chosen)
  /\ saveFormat App.DEFAULT_SETTINGS = saveFormat App.DEFAULT_SETTINGS.
Proof.
  assert (Hsame : App.download
                    (App.saveRecording App.DEFAULT_SETTINGS 1700000000000 App.initial)
                  = App.download
                      (App.saveRecording App.DEFAULT_SETTINGS 1700000000000 webm_chosen))
    by reflexivity.
  split; [exact Hsame|].
  exact (proj2 (recording_name_tells_time_and_format
                  App.DEFAULT_SETTINGS App.DEFAULT_SETTINGS
                  1700000000000 1700000000000 App.initial webm_chosen Hsame)).
Defined.

(** One minute and five seconds. *)
Lemma formatTime_reads_minutes_and_seconds_witness :
  (0 <= 65 < 6000)%Z /\ String.length (App.formatTime 65) = 5.
Proof.
  assert (Hrange : (0 <= 65 < 6000)%Z) by lia.
  split; [exact Hrange|].
  exact (proj2 (formatTime_reads_minutes_and_seconds 65 Hrange)).
Defined.

(** A screenshot taken from the application as mounted, then discarded. *)
Lemma screenshot_then_leave_witness :
  let shot := App.after (App.takeScreenshot supports_all) App.initial in
  App.getDisplayMedia supports_all Encoding.screenshot_options = Some false
  /\ App.mode (App.app App.initial) = IDLE
  /\ App.screenshotSrc (App.app App.initial) = None
  /\ App.mode (App.app shot) = SCREENSHOT_PREVIEW
  /\ App.app (App.after App.onDiscard shot) = App.app App.initial.
Proof.
  intros shot.
  assert (Hyes : App.getDisplayMedia supports_all Encoding.screenshot_options = Some false)
    by reflexivity.
  assert (Hplays : App.video_plays supports_all = true) by reflexivity.
  assert (Hctx : App.context_2d supports_all = true) by reflexivity.
  assert (Hidle : App.mode (App.app App.initial) = IDLE) by reflexivity.
  assert (Hsrc : App.screenshotSrc (App.app App.initial) = None) by reflexivity.
  destruct (screenshot_then_leave supports_all App.initial false
              {| App.size := 9; App.type := "image/png" |} 1700000000000
              Hyes Hplays Hctx Hidle Hsrc) as (Hmode & _ & Hdiscard & _).
  split; [exact Hyes|]. split; [exact Hidle|]. split; [exact Hsrc|].
  split; [exact Hmode|exact Hdiscard].
Defined.

End MoreExamples.
